(** * WebTermux terminal processor: a shallow embedding

    The development follows the server side of the repository:

    - [MemStorage] (the [./storage] module): the in-memory file system, a
      JavaScript [Map] from absolute path to [FileSystemItem];
    - [TerminalProcessor] (declared inside [registerRoutes]): the command
      interpreter with its two private fields [currentDirectory] and
      [commandHistory].

    JavaScript strings are modelled by [string]; one character stands for
    one code unit, so [String.length] is the [.length] of the source (and
    the byte length of ASCII text).  The [id], [createdAt] and [updatedAt]
    fields of a [FileSystemItem] are never read by the interpreter and are
    left out.  [async]/[await] is sequential here and is modelled by plain
    function composition. *)

From Stdlib Require Import String Ascii List Bool Arith Lia DecimalString.
Import ListNotations.
Open Scope string_scope.

Set Implicit Arguments.

(** ** JavaScript string primitives used by the source *)

Module Js.

Definition dquote : ascii := "034"%char.
Definition nl : string := String "010"%char "".
Definition esc : string := String "027"%char "".

(** [s || d] on a possibly [undefined] string. *)
Definition or_else (o : option string) (d : string) : string :=
  match o with
  | Some s => if s =? "" then d else s
  | None => d
  end.

(** [!s] on a possibly [undefined] string. *)
Definition falsy (o : option string) : bool :=
  match o with
  | Some s => s =? ""
  | None => true
  end.

(** [n.toString()] for a non-negative integer. *)
Definition toString (n : nat) : string :=
  NilEmpty.string_of_uint (Nat.to_uint n).

Definition startsWith (s p : string) : bool := String.prefix p s.

Definition endsWith (s p : string) : bool :=
  (String.length p <=? String.length s)%nat &&
  (substring (String.length s - String.length p) (String.length p) s =? p).

(** [s.substring(i)] *)
Definition substringFrom (i : nat) (s : string) : string :=
  substring i (String.length s - i) s.

(** [s.includes(p)] *)
Fixpoint includes (s p : string) : bool :=
  String.prefix p s ||
  match s with
  | EmptyString => false
  | String _ s' => includes s' p
  end.

(** [s.lastIndexOf(c)] for a one-character [c]; [None] stands for -1. *)
Fixpoint lastIndexOf (c : ascii) (s : string) : option nat :=
  match s with
  | EmptyString => None
  | String a s' =>
      match lastIndexOf c s' with
      | Some i => Some (S i)
      | None => if Ascii.eqb a c then Some 0 else None
      end
  end.

(** [s.substring(0, s.lastIndexOf(c))]; a negative end index counts as 0. *)
Definition beforeLast (c : ascii) (s : string) : string :=
  match lastIndexOf c s with
  | Some i => substring 0 i s
  | None => ""
  end.

(** [s.split(c)] for a one-character separator. *)
Fixpoint split (c : ascii) (s : string) : list string :=
  match s with
  | EmptyString => [""]
  | String a s' =>
      let r := split c s' in
      if Ascii.eqb a c then "" :: r
      else match r with
           | h :: t => String a h :: t
           | [] => [String a ""]
           end
  end.

(** [xs.pop()] read as a value: the last element, if any. *)
Definition pop (xs : list string) : option string :=
  match xs with
  | [] => None
  | _ => Some (last xs "")
  end.

(** [xs.join(sep)] *)
Fixpoint join (sep : string) (xs : list string) : string :=
  match xs with
  | [] => ""
  | [x] => x
  | x :: rest => x ++ sep ++ join sep rest
  end.

(** [s.replace(/c/g, '')] for a single character [c]. *)
Fixpoint removeAll (c : ascii) (s : string) : string :=
  match s with
  | EmptyString => ""
  | String a s' =>
      if Ascii.eqb a c then removeAll c s' else String a (removeAll c s')
  end.

(** [s.replace(p, r)] with a string pattern: first occurrence only. *)
Fixpoint replace (p r s : string) : string :=
  if String.prefix p s then r ++ substringFrom (String.length p) s
  else match s with
       | EmptyString => ""
       | String a s' => String a (replace p r s')
       end.

Fixpoint repeatChar (c : ascii) (n : nat) : string :=
  match n with
  | 0 => ""
  | S n' => String c (repeatChar c n')
  end.

(** [s.padStart(n)] (padding with spaces). *)
Definition padStart (n : nat) (s : string) : string :=
  repeatChar " "%char (n - String.length s) ++ s.

(** The white space of [trim] and of the regular expression class [\s],
    among the code units below 256. *)
Definition isSpace (c : ascii) : bool :=
  let n := nat_of_ascii c in
  ((9 <=? n)%nat && (n <=? 13)%nat) || (n =? 32)%nat || (n =? 160)%nat.

Fixpoint trimStart (s : string) : string :=
  match s with
  | EmptyString => ""
  | String a s' => if isSpace a then trimStart s' else s
  end.

Fixpoint trimEnd (s : string) : string :=
  match s with
  | EmptyString => ""
  | String a s' =>
      let r := trimEnd s' in
      if isSpace a && (r =? "") then "" else String a r
  end.

Definition trim (s : string) : string := trimEnd (trimStart s).

(** [s.split(/\s+/)]: [cur] is the piece being read, [inGap] tells that
    the previous character belonged to a separator. *)
Fixpoint splitSpaces' (inGap : bool) (cur : string) (s : string)
  : list string :=
  match s with
  | EmptyString => [cur]
  | String a s' =>
      if isSpace a then
        if inGap then splitSpaces' true cur s'
        else cur :: splitSpaces' true "" s'
      else splitSpaces' false (cur ++ String a "") s'
  end.

Definition splitSpaces (s : string) : list string :=
  splitSpaces' false "" s.

(** [xs.indexOf(x)]; [None] stands for -1. *)
Fixpoint indexOf (x : string) (xs : list string) : option nat :=
  match xs with
  | [] => None
  | y :: rest =>
      if y =? x then Some 0
      else match indexOf x rest with
           | Some i => Some (S i)
           | None => None
           end
  end.

(** [xs.push(x)] *)
Definition push (xs : list string) (x : string) : list string :=
  (xs ++ [x])%list.

(** [xs.includes(x)] *)
Definition member (x : string) (xs : list string) : bool :=
  existsb (String.eqb x) xs.

(** [xs[xs.indexOf(x) + 1]]: index -1 + 1 is 0. *)
Definition afterIndexOf (x : string) (xs : list string) : option string :=
  match indexOf x xs with
  | Some i => nth_error xs (S i)
  | None => nth_error xs 0
  end.

(** Insertion sort for [names.sort()]: the default comparison orders
    strings by code units. *)
Fixpoint insert (x : string) (xs : list string) : list string :=
  match xs with
  | [] => [x]
  | y :: rest => if String.leb x y then x :: xs else y :: insert x rest
  end.

Definition sort (xs : list string) : list string :=
  fold_right insert [] xs.

End Js.

(** ** shared/schema.ts *)

Module Schema.

Inductive ItemType := file | directory.

Definition ItemType_eqb (a b : ItemType) : bool :=
  match a, b with
  | file, file | directory, directory => true
  | _, _ => false
  end.

Record FileSystemItem := {
  path : string;
  name : string;
  type : ItemType;
  content : option string;
  permissions : string;
  size : string
}.

Record CommandResult := mkResult {
  output : string;
  error : option string;
  currentDirectory : string;
  success : bool
}.

End Schema.

(** ** The storage module: [MemStorage] *)

Module Storage.
Import Schema.

(** The [fileSystem] field: a [Map] keyed by path.  Iteration follows
    insertion order, [set] on a present key keeps its position, so the
    map is an association list with one entry per key. *)
Definition FsMap := list (string * FileSystemItem).

Fixpoint map_get (k : string) (m : FsMap) : option FileSystemItem :=
  match m with
  | [] => None
  | (k', v) :: m' => if k' =? k then Some v else map_get k m'
  end.

Definition map_has (k : string) (m : FsMap) : bool :=
  match map_get k m with
  | Some _ => true
  | None => false
  end.

Fixpoint map_set (k : string) (v : FileSystemItem) (m : FsMap) : FsMap :=
  match m with
  | [] => [(k, v)]
  | (k', v') :: m' =>
      if k' =? k then (k, v) :: m' else (k', v') :: map_set k v m'
  end.

Definition map_delete (k : string) (m : FsMap) : FsMap :=
  filter (fun kv => negb (fst kv =? k)) m.

Definition map_values (m : FsMap) : list FileSystemItem := map snd m.

Definition mkItem (p n : string) (t : ItemType) (c : option string)
           (perm sz : string) : FileSystemItem :=
  {| path := p; name := n; type := t; content := c;
     permissions := perm; size := sz |}.

(** [initializeFileSystem] *)
Definition rootDirs : list FileSystemItem :=
  [ mkItem "/" "/" directory None "drwxr-xr-x" "4096";
    mkItem "/home" "home" directory None "drwxr-xr-x" "4096";
    mkItem "/home/user" "user" directory None "drwxr-xr-x" "4096";
    mkItem "/home/user/Documents" "Documents" directory None
           "drwxr-xr-x" "4096";
    mkItem "/home/user/Projects" "Projects" directory None
           "drwxr-xr-x" "4096" ].

Definition files : list FileSystemItem :=
  [ mkItem "/home/user/.bashrc" ".bashrc" file (Some "# .bashrc")
           "-rw-r--r--" "3526";
    mkItem "/home/user/.profile" ".profile" file (Some "# .profile")
           "-rw-r--r--" "807";
    mkItem "/home/user/.bash_logout" ".bash_logout" file (Some "# logout")
           "-rw-r--r--" "220" ].

Definition initializeFileSystem : FsMap :=
  fold_left (fun m item => map_set (path item) item m)
            (rootDirs ++ files)%list [].

Definition getFileSystemItem (m : FsMap) (p : string)
  : option FileSystemItem := map_get p m.

(** [item.path.substring(0, item.path.lastIndexOf('/')) || '/'] *)
Definition itemDir (p : string) : string :=
  Js.or_else (Some (Js.beforeLast "/"%char p)) "/".

Definition normalizedPath (p : string) : string :=
  if Js.endsWith p "/" && negb (p =? "/")
  then substring 0 (String.length p - 1) p
  else p.

Definition getDirectoryContents (m : FsMap) (p : string)
  : list FileSystemItem :=
  filter (fun item =>
            (itemDir (path item) =? normalizedPath p) &&
            negb (path item =? normalizedPath p))
         (map_values m).

(** All callers give every field, so the defaults of the source
    ([permissions], [size], [content]) are always overridden. *)
Definition createFileSystemItem (m : FsMap) (item : FileSystemItem)
  : FsMap := map_set (path item) item m.

Definition updatePermissions (m : FsMap) (p perm : string) : FsMap :=
  match map_get p m with
  | None => m
  | Some item =>
      map_set p (mkItem (path item) (name item) (type item)
                        (content item) perm (size item)) m
  end.

Definition deleteFileSystemItem (m : FsMap) (p : string) : bool * FsMap :=
  (map_has p m, map_delete p m).

Definition fileSystemItemExists (m : FsMap) (p : string) : bool :=
  map_has p m.

End Storage.

(** ** [registerRoutes]: [TerminalProcessor] *)

Module TerminalProcessor.
Import Schema Storage.

(** What the interpreter reads from outside the program: the clock, and
    the text of the resource reports ([top], [ps], [df], [free]), which
    the source renders from random and floating-point figures.  The clock
    is read once per command. *)
Record Host := {
  isoNow : string;
  localeTime : string;
  topReport : string;
  psReport : string;
  dfReport : string;
  freeReport : string
}.

(** A thrown JavaScript error: [${error}] prints [errName: message]. *)
Record JsError := { errName : string; message : string }.

Definition undefinedRead (prop : string) : JsError :=
  {| errName := "TypeError";
     message :=
       "Cannot read properties of undefined (reading '" ++ prop ++ "')" |}.

Definition errorToString (e : JsError) : string :=
  errName e ++ ": " ++ message e.

Inductive Outcome :=
| Return (r : CommandResult)
| Throw (e : JsError).

(** The processor's fields, together with the [storage] singleton that
    every handler works on. *)
Record State := {
  fileSystem : FsMap;
  currentDirectory : string;
  commandHistory : list string
}.

Definition initialState : State :=
  {| fileSystem := initializeFileSystem;
     currentDirectory := "/home/user";
     commandHistory := [] |}.

Definition withFileSystem (st : State) (m : FsMap) : State :=
  {| fileSystem := m;
     currentDirectory := currentDirectory st;
     commandHistory := commandHistory st |}.

Definition withCurrentDirectory (st : State) (d : string) : State :=
  {| fileSystem := fileSystem st;
     currentDirectory := d;
     commandHistory := commandHistory st |}.

Definition pushHistory (st : State) (c : string) : State :=
  {| fileSystem := fileSystem st;
     currentDirectory := currentDirectory st;
     commandHistory := Js.push (commandHistory st) c |}.

(** [{ output, currentDirectory: this.currentDirectory, success: true }] *)
Definition ok (st : State) (out : string) : CommandResult :=
  mkResult out None (currentDirectory st) true.

(** [{ output, error, currentDirectory: this.currentDirectory,
       success: false }] *)
Definition failed (st : State) (out err : string) : CommandResult :=
  mkResult out (Some err) (currentDirectory st) false.

Definition q : string := String Js.dquote "".

Definition resolvePath (cwd : string) (path : string) : string :=
  if Js.startsWith path "/" then path
  else if path =? "~" then "/home/user"
  else if Js.startsWith path "~/" then "/home/user" ++ Js.substringFrom 1 path
  else if cwd =? "/" then "/" ++ path
  else cwd ++ "/" ++ path.

(** [arg.split('/').pop() || arg] *)
Definition baseName (arg : string) : string :=
  Js.or_else (Js.pop (Js.split "/"%char arg)) arg.

Definition listLine (showAll : bool) (out : string) (item : FileSystemItem)
  : string :=
  if negb showAll && Js.startsWith (name item) "." then out
  else
    let typeChar :=
      if ItemType_eqb (type item) directory then "d" else "-" in
    let permissions := Js.substringFrom 1 (permissions item) in
    let size := Js.padStart 8 (size item) in
    let date := "Jan 15 14:30" in
    out ++ typeChar ++ permissions ++ " 1 user user " ++ size ++ " " ++
        date ++ " " ++ name item ++ Js.nl.

(** The two renderings of [listDirectory], once the target exists. *)
Definition formatListing (showAll longFormat : bool) (fullPath : string)
           (contents : list FileSystemItem) : string :=
  if longFormat then
    let output :=
      "total " ++ Js.toString (Nat.max (List.length contents * 4) 12)
               ++ Js.nl in
    let output :=
      if showAll then
        let output :=
          output ++ "drwxr-xr-x 3 user user 4096 Jan 15 14:30 ." ++ Js.nl in
        if negb (fullPath =? "/") then
          output ++ "drwxr-xr-x 3 root root 4096 Jan 15 14:20 .." ++ Js.nl
        else output
      else output in
    let output := fold_left (listLine showAll) contents output in
    Js.trim output
  else
    let fileNames :=
      Js.sort
        (map name
             (filter (fun item =>
                        showAll || negb (Js.startsWith (name item) "."))
                     contents)) in
    Js.join "  " fileNames.

Definition listDirectory (args : list string) (st : State) : CommandResult :=
  let showAll :=
    Js.member "-a" args || Js.member "-la" args || Js.member "-al" args in
  let longFormat :=
    Js.member "-l" args || Js.member "-la" args || Js.member "-al" args in
  let targetPath :=
    Js.or_else (find (fun arg => negb (Js.startsWith arg "-")) args)
               (currentDirectory st) in
  let fullPath := resolvePath (currentDirectory st) targetPath in
  let dirExists := fileSystemItemExists (fileSystem st) fullPath in
  if negb dirExists then
    failed st ("ls: cannot access '" ++ targetPath ++
               "': No such file or directory")
           "No such file or directory"
  else
    let contents := getDirectoryContents (fileSystem st) fullPath in
    ok st (formatListing showAll longFormat fullPath contents).

Definition changeDirectory (path : string) (st : State) : State * Outcome :=
  let fullPath := resolvePath (currentDirectory st) path in
  let exists_ := fileSystemItemExists (fileSystem st) fullPath in
  if negb exists_ then
    (st, Return (failed st ("cd: no such file or directory: " ++ path)
                        "No such file or directory"))
  else
    let isDirectory :=
      match getFileSystemItem (fileSystem st) fullPath with
      | Some item => ItemType_eqb (type item) directory
      | None => false
      end in
    if negb isDirectory then
      (st, Return (failed st ("cd: not a directory: " ++ path)
                          "Not a directory"))
    else
      let st' := withCurrentDirectory st fullPath in
      (st', Return (ok st' "")).

(** One turn of the loop of [makeDirectory]: the store and the messages
    pushed so far. *)
Definition mkdirStep (cwd : string) (acc : FsMap * list string)
           (arg : string) : FsMap * list string :=
  let (fs, results) := acc in
  let fullPath := resolvePath cwd arg in
  if fileSystemItemExists fs fullPath then
    (fs, Js.push results
           ("mkdir: cannot create directory '" ++ arg ++ "': File exists"))
  else
    let parentPath := Js.or_else (Some (Js.beforeLast "/"%char fullPath)) "/" in
    let parentExists := fileSystemItemExists fs parentPath in
    if negb parentExists && negb (parentPath =? "/") then
      (fs, Js.push results
             ("mkdir: cannot create directory '" ++ arg ++
              "': No such file or directory"))
    else
      (createFileSystemItem fs
         (mkItem fullPath (baseName arg) directory None "drwxr-xr-x" "4096"),
       results).

(** [{ output: results.join('\n'),
       error: results.length > 0 ? results[0] : undefined, ...,
       success: results.length === 0 }]; an [undefined] error is an
    absent one. *)
Definition aggregate (st : State) (results : list string) : CommandResult :=
  mkResult (Js.join Js.nl results) (hd_error results) (currentDirectory st)
           (List.length results =? 0)%nat.

Definition makeDirectory (args : list string) (st : State) : State * Outcome :=
  if (List.length args =? 0)%nat then
    (st, Return (failed st "mkdir: missing operand" "Missing operand"))
  else
    let (fs, results) :=
      fold_left (mkdirStep (currentDirectory st)) args (fileSystem st, []) in
    let st' := withFileSystem st fs in
    (st', Return (aggregate st' results)).

Definition touchStep (cwd : string) (fs : FsMap) (arg : string) : FsMap :=
  let fullPath := resolvePath cwd arg in
  if fileSystemItemExists fs fullPath then fs
  else
    createFileSystemItem fs
      (mkItem fullPath (baseName arg) file (Some "") "-rw-r--r--" "0").

Definition createFile (args : list string) (st : State) : State * Outcome :=
  if (List.length args =? 0)%nat then
    (st, Return (failed st "touch: missing file operand"
                        "Missing file operand"))
  else
    let fs := fold_left (touchStep (currentDirectory st)) args (fileSystem st) in
    let st' := withFileSystem st fs in
    (st', Return (ok st' "")).

Definition readFile (path : option string) (st : State) : CommandResult :=
  match path with
  | None => failed st "cat: missing file operand" "Missing file operand"
  | Some path =>
      if path =? "" then
        failed st "cat: missing file operand" "Missing file operand"
      else
        let fullPath := resolvePath (currentDirectory st) path in
        match getFileSystemItem (fileSystem st) fullPath with
        | None =>
            failed st ("cat: " ++ path ++ ": No such file or directory")
                   "No such file or directory"
        | Some item =>
            if ItemType_eqb (type item) directory then
              failed st ("cat: " ++ path ++ ": Is a directory")
                     "Is a directory"
            else ok st (Js.or_else (content item) "")
        end
  end.

Definition echo (args : list string) (st : State) : State * Outcome :=
  if (List.length args =? 0)%nat then (st, Return (ok st ""))
  else
    let plain := (st, Return (ok st (Js.removeAll Js.dquote (Js.join " " args)))) in
    match Js.indexOf ">" args with
    | Some redirectIndex =>
        if (redirectIndex <? List.length args - 1)%nat then
          let content :=
            Js.removeAll Js.dquote (Js.join " " (firstn redirectIndex args)) in
          match nth_error args (redirectIndex + 1) with
          | None => (st, Throw (undefinedRead "startsWith"))
          | Some filename =>
              let fullPath := resolvePath (currentDirectory st) filename in
              let fs :=
                createFileSystemItem (fileSystem st)
                  (mkItem fullPath (baseName filename) file (Some content)
                          "-rw-r--r--"
                          (Js.toString (String.length content))) in
              let st' := withFileSystem st fs in
              (st', Return (ok st' ""))
          end
        else plain
    | None => plain
    end.

Definition rmStep (cwd : string) (acc : FsMap * list string) (arg : string)
  : FsMap * list string :=
  let (fs, results) := acc in
  let fullPath := resolvePath cwd arg in
  if negb (fileSystemItemExists fs fullPath) then
    (fs, Js.push results
           ("rm: cannot remove '" ++ arg ++ "': No such file or directory"))
  else
    let (deleted, fs') := deleteFileSystemItem fs fullPath in
    if negb deleted then
      (fs', Js.push results
              ("rm: cannot remove '" ++ arg ++ "': Operation failed"))
    else (fs', results).

Definition removeFile (args : list string) (st : State) : State * Outcome :=
  if (List.length args =? 0)%nat then
    (st, Return (failed st "rm: missing operand" "Missing operand"))
  else
    let (fs, results) :=
      fold_left (rmStep (currentDirectory st)) args (fileSystem st, []) in
    let st' := withFileSystem st fs in
    (st', Return (aggregate st' results)).

Definition helpText : string :=
  Js.join Js.nl
  [
    "Available Commands:";
    "";
    "File System:";
    "ls          - List directory contents";
    "pwd         - Print working directory  ";
    "cd          - Change directory";
    "mkdir       - Create directory";
    "touch       - Create file";
    "cat         - Display file contents";
    "echo        - Display text";
    "rm          - Remove files";
    "cp          - Copy files/directories";
    "mv          - Move/rename files";
    "chmod       - Change file permissions";
    "find        - Find files and directories";
    "grep        - Search text in files";
    "";
    "Network & Downloads:";
    "curl        - Transfer data from/to servers";
    "wget        - Download files from web";
    "ssh         - Secure shell remote access";
    "scp         - Secure copy over SSH";
    "rsync       - Sync files/directories";
    "";
    "Development:";
    "git         - Git version control";
    "python      - Python interpreter";
    "node        - Node.js runtime";
    "java        - Java runtime";
    "javac       - Java compiler";
    "gcc/g++     - C/C++ compiler";
    "make        - Build automation";
    "npm         - Node package manager";
    "pip         - Python package manager";
    "";
    "System Monitoring:";
    "top/htop    - System resource monitor";
    "ps          - Show running processes";
    "df          - Show disk usage";
    "free        - Show memory usage";
    "uname       - System information";
    "whoami      - Current user";
    "";
    "Text Editors:";
    "nano/vim    - Text editors";
    "";
    "Archive Tools:";
    "tar         - Archive files";
    "zip/unzip   - Compress/extract files";
    "";
    "Utilities:";
    "clear       - Clear terminal";
    "help        - Show this help";
    "";
    "Command options:";
    "ls -l       - Long format listing";
    "ls -a       - Show hidden files";
    "ls -la      - Long format with hidden files";
    "echo " ++ q ++ "text" ++ q ++ " > file - Redirect output to file" ].

Definition showHelp (st : State) : CommandResult := ok st helpText.

(** *** Advanced command implementations *)

Section Advanced.

Variable host : Host.

(** [new Date().toISOString().split('T')[0]] *)
Definition today : string := hd "" (Js.split "T"%char (isoNow host)).

(** A possibly [undefined] string inside a template literal. *)
Definition render (o : option string) : string :=
  match o with
  | Some s => s
  | None => "undefined"
  end.

Definition executeCurl (args : list string) (st : State) : CommandResult :=
  match args with
  | [] => failed st "curl: missing URL" "Missing URL"
  | url :: _ =>
      if negb (Js.startsWith url "http") then
        failed st
          ("curl: (1) Protocol " ++ q ++ hd "" (Js.split ":"%char url) ++ q ++
           " not supported or disabled in libcurl")
          "Invalid URL protocol"
      else
        let mockResponse :=
          Js.join Js.nl
            [ "HTTP/1.1 200 OK";
              "Content-Type: application/json";
              "Content-Length: 85";
              "";
              "{";
              "  " ++ q ++ "message" ++ q ++ ": " ++ q ++ "Success" ++ q ++ ",";
              "  " ++ q ++ "url" ++ q ++ ": " ++ q ++ url ++ q ++ ",";
              "  " ++ q ++ "method" ++ q ++ ": " ++ q ++ "GET" ++ q ++ ",";
              "  " ++ q ++ "timestamp" ++ q ++ ": " ++ q ++ isoNow host ++ q;
              "}" ] in
        ok st mockResponse
  end.

Definition executeWget (args : list string) (st : State) : State * Outcome :=
  match args with
  | [] => (st, Return (failed st "wget: missing URL" "Missing URL"))
  | url :: _ =>
      let filename := Js.or_else (Js.pop (Js.split "/"%char url)) "index.html" in
      let server := render (nth_error (Js.split "/"%char url) 2) in
      let output :=
        Js.join Js.nl
          [ "--" ++ today ++ " " ++ localeTime host ++ "--  " ++ url;
            "Resolving " ++ server ++ "... 192.168.1.1";
            "Connecting to " ++ server ++ "|192.168.1.1|:80... connected.";
            "HTTP request sent, awaiting response... 200 OK";
            "Length: 2048 (2.0K) [text/html]";
            "Saving to: '" ++ filename ++ "'";
            "";
            filename ++
            "          100%[===================>]   2.00K  --.-KB/s    in 0s      ";
            "";
            today ++ " " ++ localeTime host ++ " (10.2 MB/s) - '" ++ filename ++
            "' saved [2048/2048]" ] in
      let fs :=
        createFileSystemItem (fileSystem st)
          (mkItem (resolvePath (currentDirectory st) filename) filename file
             (Some (Js.join Js.nl
                      [ "<!DOCTYPE html>";
                        "<html>";
                        "<head><title>Downloaded content</title></head>";
                        "<body><h1>Sample content from " ++ url ++
                        "</h1></body>";
                        "</html>" ]))
             "-rw-r--r--" "2048") in
      let st' := withFileSystem st fs in
      (st', Return (ok st' output))
  end.

Definition gitUsage : string :=
  Js.join Js.nl
    [ "usage: git [--version] [--help] [-C <path>] [-c <name>=<value>]";
      "           [--exec-path[=<path>]] [--html-path] [--man-path] [--info-path]";
      "           [-p | --paginate | -P | --no-pager] [--no-replace-objects] [--bare]";
      "           [--git-dir=<path>] [--work-tree=<path>] [--namespace=<name>]";
      "           <command> [<args>]" ].

(** The [gitFiles] of a clone: name and content. *)
Definition gitFiles (repoName repoUrl : string) : list (string * string) :=
  [ ("README.md", "# " ++ repoName ++ Js.nl ++ Js.nl ++ "Cloned from " ++ repoUrl);
    (".gitignore", "node_modules/" ++ Js.nl ++ "*.log" ++ Js.nl ++ ".env");
    ("package.json",
     Js.join Js.nl
       [ "{";
         "  " ++ q ++ "name" ++ q ++ ": " ++ q ++ repoName ++ q ++ ",";
         "  " ++ q ++ "version" ++ q ++ ": " ++ q ++ "1.0.0" ++ q ++ ",";
         "  " ++ q ++ "description" ++ q ++ ": " ++ q ++ "Cloned repository" ++ q;
         "}" ]) ].

Definition executeGit (args : list string) (st : State) : State * Outcome :=
  match args with
  | [] => (st, Return (ok st gitUsage))
  | subcommand :: subargs =>
      if subcommand =? "clone" then
        match subargs with
        | [] =>
            (st, Return (failed st
                           "fatal: You must specify a repository to clone."
                           "Missing repository URL"))
        | repoUrl :: _ =>
            let repoName :=
              Js.or_else
                (option_map (Js.replace ".git" "")
                            (Js.pop (Js.split "/"%char repoUrl)))
                "repository" in
            let cloneOutput :=
              Js.join Js.nl
                [ "Cloning into '" ++ repoName ++ "'...";
                  "remote: Enumerating objects: 156, done.";
                  "remote: Counting objects: 100% (156/156), done.";
                  "remote: Compressing objects: 100% (98/98), done.";
                  "remote: Total 156 (delta 45), reused 132 (delta 34), pack-reused 0";
                  "Receiving objects: 100% (156/156), 45.67 KiB | 1.52 MiB/s, done.";
                  "Resolving deltas: 100% (45/45), done." ] in
            let repoPath := resolvePath (currentDirectory st) repoName in
            let fs :=
              createFileSystemItem (fileSystem st)
                (mkItem repoPath repoName directory None "drwxr-xr-x" "4096") in
            let fs :=
              fold_left
                (fun fs f =>
                   createFileSystemItem fs
                     (mkItem (repoPath ++ "/" ++ fst f) (fst f) file
                             (Some (snd f)) "-rw-r--r--"
                             (Js.toString (String.length (snd f)))))
                (gitFiles repoName repoUrl) fs in
            let st' := withFileSystem st fs in
            (st', Return (ok st' cloneOutput))
        end
      else if subcommand =? "status" then
        (st, Return (ok st
           ("On branch main" ++ Js.nl ++
            "Your branch is up to date with 'origin/main'." ++ Js.nl ++ Js.nl ++
            "nothing to commit, working tree clean")))
      else if subcommand =? "init" then
        (st, Return (ok st
           ("Initialized empty Git repository in " ++ currentDirectory st ++
            "/.git/")))
      else if subcommand =? "add" then (st, Return (ok st ""))
      else if subcommand =? "commit" then
        (st, Return (ok st
           ("[main 1a2b3c4] Sample commit" ++ Js.nl ++
            " 1 file changed, 1 insertion(+)")))
      else if subcommand =? "push" then
        (st, Return (ok st "Everything up-to-date"))
      else if subcommand =? "pull" then
        (st, Return (ok st "Already up to date."))
      else
        (st, Return (failed st
           ("git: '" ++ subcommand ++ "' is not a git command. See 'git --help'.")
           "Unknown git command"))
  end.

Definition pythonBanner : string :=
  Js.join Js.nl
  [
    "Python 3.11.0 (main, Oct 24 2022, 18:26:48) [GCC 9.4.0] on linux";
    "Type " ++ q ++ "help" ++ q ++ ", " ++ q ++ "copyright" ++ q ++ ", " ++ q ++ "credits" ++ q ++ " or " ++ q ++ "license" ++ q ++ " for more information.";
    ">>> exit()" ].
Definition nodeBanner : string :=
  Js.join Js.nl
  [
    "Welcome to Node.js v18.17.0.";
    "Type " ++ q ++ ".help" ++ q ++ " for more information.";
    "> .exit" ].
Definition javaUsage : string :=
  Js.join Js.nl
  [
    "Usage: java [options] <mainclass> [args...]";
    "           (to execute a class)";
    "   or  java [options] -jar <jarfile> [args...]";
    "           (to execute a jar file)" ].
Definition npmUsage : string :=
  Js.join Js.nl
  [
    "npm <command>";
    "";
    "Usage:";
    "";
    "npm install        install all the dependencies";
    "npm install <foo>  add the <foo> dependency";
    "npm test           run this package's tests";
    "npm run <foo>      run the script named <foo>";
    "npm <command> -h   quick help on <command>" ].
Definition pipUsage : string :=
  Js.join Js.nl
  [
    "";
    "Usage:   ";
    "  pip <command> [options]";
    "";
    "Commands:";
    "  install                     Install packages.";
    "  download                    Download packages.";
    "  uninstall                   Uninstall packages.";
    "  freeze                      Output installed packages in requirements format.";
    "  list                        List installed packages.";
    "  show                        Show information about installed packages." ].

Definition executePython (args : list string) (st : State) : CommandResult :=
  match args with
  | [] => ok st pythonBanner
  | filename :: _ =>
      match getFileSystemItem (fileSystem st)
                              (resolvePath (currentDirectory st) filename) with
      | None =>
          failed st
            ("python: can't open file '" ++ filename ++
             "': [Errno 2] No such file or directory")
            "File not found"
      | Some f =>
          if negb (ItemType_eqb (type f) file)
             || negb (Js.endsWith filename ".py") then
            failed st
              ("python: can't open file '" ++ filename ++
               "': [Errno 21] Is a directory")
              "Invalid file"
          else
            ok st (Js.join Js.nl
                     [ "Running Python script: " ++ filename;
                       "Hello from Python!";
                       "Script execution completed successfully." ])
      end
  end.

Definition executeNode (args : list string) (st : State) : CommandResult :=
  match args with
  | [] => ok st nodeBanner
  | filename :: _ =>
      match getFileSystemItem (fileSystem st)
                              (resolvePath (currentDirectory st) filename) with
      | None =>
          failed st ("node: can't open file '" ++ filename ++ "'")
                 "File not found"
      | Some _ =>
          ok st (Js.join Js.nl
                   [ "Running Node.js script: " ++ filename;
                     "Hello from Node.js!";
                     "Script execution completed successfully." ])
      end
  end.

Definition executeJava (args : list string) (st : State) : CommandResult :=
  match args with
  | [] => ok st javaUsage
  | className :: _ =>
      ok st (Js.join Js.nl
               [ "Running Java class: " ++ className;
                 "Hello from Java!";
                 "Program execution completed successfully." ])
  end.

Definition executeJavac (args : list string) (st : State) : State * Outcome :=
  match args with
  | [] => (st, Return (ok st "Usage: javac <options> <source files>"))
  | filename :: _ =>
      let f := getFileSystemItem (fileSystem st)
                 (resolvePath (currentDirectory st) filename) in
      if match f with None => true | Some _ => false end
         || negb (Js.endsWith filename ".java") then
        (st, Return (failed st ("javac: file not found: " ++ filename)
                            "File not found"))
      else
        let classFile := Js.replace ".java" ".class" filename in
        let fs :=
          createFileSystemItem (fileSystem st)
            (mkItem (resolvePath (currentDirectory st) classFile) classFile
                    file (Some "Compiled Java bytecode (binary)")
                    "-rw-r--r--" "1024") in
        let st' := withFileSystem st fs in
        (st', Return (ok st' ("Compiled " ++ filename ++ " successfully.")))
  end.

Definition executeGcc (compiler : string) (args : list string) (st : State)
  : State * Outcome :=
  match args with
  | [] =>
      (st, Return (failed st
         (compiler ++ ": fatal error: no input files" ++ Js.nl ++
          "compilation terminated.")
         "No input files"))
  | sourceFile :: _ =>
      let outputFile :=
        if Js.member "-o" args then Js.afterIndexOf "-o" args
        else Some "a.out" in
      match getFileSystemItem (fileSystem st)
                              (resolvePath (currentDirectory st) sourceFile) with
      | None =>
          (st, Return (failed st
             (compiler ++ ": error: " ++ sourceFile ++
              ": No such file or directory")
             "File not found"))
      | Some _ =>
          match outputFile with
          | None => (st, Throw (undefinedRead "startsWith"))
          | Some outputFile =>
              let fs :=
                createFileSystemItem (fileSystem st)
                  (mkItem (resolvePath (currentDirectory st) outputFile)
                          outputFile file
                          (Some "Compiled executable (binary)")
                          "-rwxr-xr-x" "8192") in
              let st' := withFileSystem st fs in
              (st', Return (ok st'
                 ("Compiled " ++ sourceFile ++ " to " ++ outputFile ++
                  " successfully.")))
          end
      end
  end.

Definition executeMake (args : list string) (st : State) : CommandResult :=
  ok st (Js.join Js.nl
           [ "make: Entering directory '" ++ currentDirectory st ++ "'";
             "gcc -o main main.c";
             "make: Leaving directory '" ++ currentDirectory st ++ "'" ]).

Definition npmInstallOutput : string :=
  Js.join Js.nl
    [ "npm WARN saveError ENOENT: no such file or directory, open 'package.json'";
      "npm notice created a lockfile as package-lock.json. You should commit this file.";
      "npm WARN enoent ENOENT: no such file or directory, open 'package.json'";
      "npm WARN terminal No description";
      "npm WARN terminal No repository field.";
      "npm WARN terminal No README data";
      "npm WARN terminal No license field.";
      "";
      "audited 1 package in 0.5s";
      "found 0 vulnerabilities" ].

Definition executeNpm (args : list string) (st : State) : CommandResult :=
  match args with
  | [] => ok st npmUsage
  | command :: _ =>
      if command =? "install" then ok st npmInstallOutput
      else if command =? "init" then
        ok st ("This utility will walk you through creating a package.json file."
               ++ Js.nl ++ "package.json created successfully!")
      else if command =? "start" then
        failed st "npm ERR! missing script: start" "Missing script"
      else failed st ("Unknown command: " ++ command) "Unknown command"
  end.

Definition executePip (args : list string) (st : State) : CommandResult :=
  match args with
  | [] => ok st pipUsage
  | command :: _ =>
      if command =? "install" then
        let package_name := Js.or_else (nth_error args 1) "package" in
        ok st (Js.join Js.nl
                 [ "Collecting " ++ package_name;
                   "  Downloading " ++ package_name ++
                   "-1.0.0-py3-none-any.whl (50 kB)";
                   "Installing collected packages: " ++ package_name;
                   "Successfully installed " ++ package_name ++ "-1.0.0" ])
      else if command =? "list" then
        ok st (Js.join Js.nl
                 [ "Package    Version";
                   "---------- -------";
                   "pip        23.0.1";
                   "setuptools 65.5.0";
                   "wheel      0.38.4" ])
      else failed st ("Unknown command: " ++ command) "Unknown command"
  end.

Definition showSystemResources (st : State) : CommandResult :=
  ok st (topReport host).

Definition showProcesses (st : State) : CommandResult := ok st (psReport host).

Definition showDiskUsage (st : State) : CommandResult := ok st (dfReport host).

Definition showMemoryUsage (st : State) : CommandResult :=
  ok st (freeReport host).

Definition showSystemInfo (args : list string) (st : State) : CommandResult :=
  if Js.member "-a" args then
    ok st "Linux webtermux 5.15.0-generic #72-Ubuntu SMP Fri Jan 20 10:24:01 UTC 2023 x86_64 x86_64 x86_64 GNU/Linux"
  else ok st "Linux".

Definition openEditor (editor : string) (args : list string) (st : State)
  : CommandResult :=
  let filename := Js.or_else (nth_error args 0) "newfile.txt" in
  ok st (Js.join Js.nl
           [ "Opening " ++ filename ++ " with " ++ editor ++ "...";
             editor ++ ": Editor simulation - file opened successfully.";
             "Use Ctrl+X to exit (nano) or :q to quit (vim)." ]).

Definition findFiles (args : list string) (st : State) : Outcome :=
  let searchPath := Js.or_else (nth_error args 0) (currentDirectory st) in
  let searchName :=
    if Js.member "-name" args then Js.afterIndexOf "-name" args
    else Some "*" in
  let contents := getDirectoryContents (fileSystem st) searchPath in
  match searchName with
  | Some searchName =>
      let results :=
        filter (fun item =>
                  (searchName =? "*") ||
                  Js.includes (name item) (Js.replace "*" "" searchName))
               contents in
      Return (ok st (Js.join Js.nl (map path results)))
  | None =>
      (* the filter callback reads [searchName.replace] on its first call *)
      match contents with
      | [] => Return (ok st "")
      | _ :: _ => Throw (undefinedRead "replace")
      end
  end.

Definition grepCommand (args : list string) (st : State) : CommandResult :=
  match args with
  | pattern :: filename :: _ =>
      match getFileSystemItem (fileSystem st)
                              (resolvePath (currentDirectory st) filename) with
      | None =>
          failed st ("grep: " ++ filename ++ ": No such file or directory")
                 "File not found"
      | Some f =>
          if ItemType_eqb (type f) directory then
            failed st ("grep: " ++ filename ++ ": Is a directory")
                   "Is a directory"
          else
            let content := Js.or_else (content f) "" in
            let lines := Js.split "010"%char content in
            let matches := filter (fun line => Js.includes line pattern) lines in
            ok st (Js.join Js.nl matches)
      end
  | _ => failed st "grep: missing pattern or file" "Missing arguments"
  end.

Definition executeTar (args : list string) (st : State) : CommandResult :=
  match args with
  | [] =>
      failed st
        "tar: You must specify one of the '-Acdtrux', '--delete' or '--test-label' options"
        "Missing options"
  | option :: _ =>
      let archiveName := Js.or_else (Js.afterIndexOf "-f" args) "archive.tar" in
      if Js.includes option "c" then ok st ("Created archive: " ++ archiveName)
      else if Js.includes option "x" then
        ok st ("Extracted archive: " ++ archiveName)
      else ok st "tar: operation completed"
  end.

Definition executeZip (command : string) (args : list string) (st : State)
  : CommandResult :=
  let zipName := Js.or_else (nth_error args 0) "archive.zip" in
  if command =? "zip" then
    ok st ("  adding: files (deflated 50%)" ++ Js.nl ++
           "Archive " ++ zipName ++ " created successfully.")
  else
    ok st (Js.join Js.nl
             [ "Archive:  " ++ zipName;
               "  inflating: file1.txt";
               "  inflating: file2.txt";
               "Extraction completed." ]).

Definition copyFile (args : list string) (st : State) : State * Outcome :=
  match args with
  | arg0 :: arg1 :: _ =>
      let source := resolvePath (currentDirectory st) arg0 in
      let dest := resolvePath (currentDirectory st) arg1 in
      match getFileSystemItem (fileSystem st) source with
      | None =>
          (st, Return (failed st
             ("cp: cannot stat '" ++ arg0 ++ "': No such file or directory")
             "File not found"))
      | Some sourceFile =>
          let fs :=
            createFileSystemItem (fileSystem st)
              (mkItem dest (baseName arg1) (type sourceFile)
                      (content sourceFile) (permissions sourceFile)
                      (size sourceFile)) in
          let st' := withFileSystem st fs in
          (st', Return (ok st' ""))
      end
  | _ =>
      (st, Return (failed st
         "cp: missing destination file operand after source"
         "Missing destination"))
  end.

Definition moveFile (args : list string) (st : State) : State * Outcome :=
  match args with
  | arg0 :: arg1 :: _ =>
      let source := resolvePath (currentDirectory st) arg0 in
      let dest := resolvePath (currentDirectory st) arg1 in
      match getFileSystemItem (fileSystem st) source with
      | None =>
          (st, Return (failed st
             ("mv: cannot stat '" ++ arg0 ++ "': No such file or directory")
             "File not found"))
      | Some sourceFile =>
          let fs :=
            createFileSystemItem (fileSystem st)
              (mkItem dest (baseName arg1) (type sourceFile)
                      (content sourceFile) (permissions sourceFile)
                      (size sourceFile)) in
          let fs := snd (deleteFileSystemItem fs source) in
          let st' := withFileSystem st fs in
          (st', Return (ok st' ""))
      end
  | _ =>
      (st, Return (failed st
         "mv: missing destination file operand after source"
         "Missing destination"))
  end.

Definition changePermissions (args : list string) (st : State)
  : State * Outcome :=
  match args with
  | permissions :: filename :: _ =>
      let filepath := resolvePath (currentDirectory st) filename in
      match getFileSystemItem (fileSystem st) filepath with
      | None =>
          (st, Return (failed st
             ("chmod: cannot access '" ++ filename ++
              "': No such file or directory")
             "File not found"))
      | Some _ =>
          let fs := updatePermissions (fileSystem st) filepath
                                      ("-" ++ permissions) in
          let st' := withFileSystem st fs in
          (st', Return (ok st' ""))
      end
  | _ => (st, Return (failed st "chmod: missing operand" "Missing operand"))
  end.

Definition executeSSH (args : list string) (st : State) : CommandResult :=
  match args with
  | [] =>
      ok st ("usage: ssh [-46AaCfGgKkMNnqsTtVvXxYy] [-B bind_interface]" ++ Js.nl
             ++ "           [-b bind_address] [-c cipher_spec] [-D [bind_address:]port]")
  | host_ :: _ =>
      failed st ("ssh: connect to host " ++ host_ ++
                 " port 22: Connection refused")
             "Connection refused"
  end.

Definition executeSCP (args : list string) (st : State) : CommandResult :=
  match args with
  | source :: dest :: _ =>
      failed st ("scp: connect to host " ++ hd "" (Js.split ":"%char dest) ++
                 " port 22: Connection refused")
             "Connection refused"
  | _ =>
      ok st "usage: scp [-346BCpqrTv] [-c cipher] [-F ssh_config] [-i identity_file]"
  end.

Definition executeRsync (args : list string) (st : State) : CommandResult :=
  match args with
  | source :: dest :: _ =>
      ok st (Js.join Js.nl
               [ "sending incremental file list";
                 source;
                 "";
                 "sent 1,234 bytes  received 56 bytes  258.00 bytes/sec";
                 "total size is 1,234  speedup is 0.96" ])
  | _ => failed st "rsync: no destination specified" "Missing destination"
  end.

(** *** The dispatcher *)

(** A handler that leaves the processor and the store as they are. *)
Definition stay (st : State) (r : CommandResult) : State * Outcome :=
  (st, Return r).

(** The [switch] of [executeCommand]. *)
Definition dispatch (cmd : string) (args : list string) (st : State)
  : State * Outcome :=
  if cmd =? "pwd" then stay st (ok st (currentDirectory st))
  else if cmd =? "ls" then stay st (listDirectory args st)
  else if cmd =? "cd" then
    changeDirectory (Js.or_else (nth_error args 0) "/home/user") st
  else if cmd =? "mkdir" then makeDirectory args st
  else if cmd =? "touch" then createFile args st
  else if cmd =? "cat" then stay st (readFile (nth_error args 0) st)
  else if cmd =? "echo" then echo args st
  else if cmd =? "rm" then removeFile args st
  else if cmd =? "clear" then
    stay st (ok st (Js.esc ++ "[2J" ++ Js.esc ++ "[H"))
  else if cmd =? "help" then stay st (showHelp st)
  else if cmd =? "curl" then stay st (executeCurl args st)
  else if cmd =? "wget" then executeWget args st
  else if cmd =? "git" then executeGit args st
  else if (cmd =? "python") || (cmd =? "python3") then
    stay st (executePython args st)
  else if (cmd =? "node") || (cmd =? "nodejs") then
    stay st (executeNode args st)
  else if cmd =? "java" then stay st (executeJava args st)
  else if cmd =? "javac" then executeJavac args st
  else if (cmd =? "gcc") || (cmd =? "g++") then executeGcc cmd args st
  else if cmd =? "make" then stay st (executeMake args st)
  else if cmd =? "npm" then stay st (executeNpm args st)
  else if (cmd =? "pip") || (cmd =? "pip3") then stay st (executePip args st)
  else if (cmd =? "top") || (cmd =? "htop") then
    stay st (showSystemResources st)
  else if cmd =? "ps" then stay st (showProcesses st)
  else if cmd =? "df" then stay st (showDiskUsage st)
  else if cmd =? "free" then stay st (showMemoryUsage st)
  else if cmd =? "uname" then stay st (showSystemInfo args st)
  else if cmd =? "whoami" then stay st (ok st "user")
  else if (cmd =? "nano") || (cmd =? "vim") || (cmd =? "vi") then
    stay st (openEditor cmd args st)
  else if cmd =? "find" then (st, findFiles args st)
  else if cmd =? "grep" then stay st (grepCommand args st)
  else if cmd =? "tar" then stay st (executeTar args st)
  else if (cmd =? "zip") || (cmd =? "unzip") then
    stay st (executeZip cmd args st)
  else if cmd =? "cp" then copyFile args st
  else if cmd =? "mv" then moveFile args st
  else if cmd =? "chmod" then changePermissions args st
  else if cmd =? "ssh" then stay st (executeSSH args st)
  else if cmd =? "scp" then stay st (executeSCP args st)
  else if cmd =? "rsync" then stay st (executeRsync args st)
  else
    stay st (failed st ("Command not found: " ++ cmd)
                    (cmd ++ ": command not found")).

(** The [catch] clause of [executeCommand]. *)
Definition caught (st : State) (e : JsError) : CommandResult :=
  failed st ("Error executing command: " ++ errorToString e) (message e).

Definition executeCommand (command : string) (st : State)
  : State * CommandResult :=
  let trimmedCommand := Js.trim command in
  if trimmedCommand =? "" then (st, ok st "")
  else
    let st := pushHistory st trimmedCommand in
    let parts := Js.splitSpaces trimmedCommand in
    let cmd := hd "" parts in
    let args := tl parts in
    match dispatch cmd args st with
    | (st', Return r) => (st', r)
    | (st', Throw e) => (st', caught st' e)
    end.

(** A session: the commands of a connection, one after the other. *)
Definition runAll (commands : list string) (st : State) : State :=
  fold_left (fun st c => fst (executeCommand c st)) commands st.

End Advanced.

End TerminalProcessor.

(** ** The specification's wording, as definitions *)

Module Spec.
Import Schema Storage TerminalProcessor.

(** A host for the examples. *)
Definition sampleHost : Host :=
  {| isoNow := "2024-01-15T14:30:00.000Z";
     localeTime := "2:30:00 PM";
     topReport := "top";
     psReport := "ps";
     dfReport := "df";
     freeReport := "free" |}.

(** PathResolver, rule 4 and rule 5. *)
Definition relative (cwd raw : string) : string :=
  if cwd =? "/" then "/" ++ raw else cwd ++ "/" ++ raw.

(** PathResolver: the five rules, read off the shape of [raw]. *)
Definition resolve (cwd raw : string) : string :=
  match raw with
  | EmptyString => relative cwd raw
  | String c rest =>
      if Ascii.eqb c "/" then raw
      else if Ascii.eqb c "~" then
        match rest with
        | EmptyString => "/home/user"
        | String c' _ =>
            if Ascii.eqb c' "/" then "/home/user" ++ rest
            else relative cwd raw
        end
      else relative cwd raw
  end.

(** echo: the first [>] token, when a file name follows it, splits the
    arguments into the text before it and that file name. *)
Fixpoint redirection (args : list string) : option (list string * string) :=
  match args with
  | [] => None
  | a :: rest =>
      if a =? ">" then
        match rest with
        | filename :: _ => Some ([], filename)
        | [] => None
        end
      else
        match redirection rest with
        | Some (text, filename) => Some (a :: text, filename)
        | None => None
        end
  end.

(** mkdir: a run over the arguments, from a store to a store, with the
    nodes it created and the messages of the paths it refused.  A path is
    refused when a node is stored there, or when its parent path is not
    ['/'] and no node is stored at the parent; any other path gets a
    directory node. *)
Inductive MkdirRun (cwd : string)
  : FsMap -> list string -> FsMap -> list FileSystemItem -> list string
    -> Prop :=
| run_done (fs : FsMap) : MkdirRun cwd fs [] fs [] []
| run_exists (fs : FsMap) (arg : string) (args : list string) (fs' : FsMap)
             (created : list FileSystemItem) (msgs : list string) :
    fileSystemItemExists fs (resolvePath cwd arg) = true ->
    MkdirRun cwd fs args fs' created msgs ->
    MkdirRun cwd fs (arg :: args) fs' created
             (("mkdir: cannot create directory '" ++ arg ++ "': File exists")
                :: msgs)
| run_no_parent (fs : FsMap) (arg : string) (args : list string)
                (fs' : FsMap) (created : list FileSystemItem)
                (msgs : list string) :
    fileSystemItemExists fs (resolvePath cwd arg) = false ->
    itemDir (resolvePath cwd arg) <> "/" ->
    fileSystemItemExists fs (itemDir (resolvePath cwd arg)) = false ->
    MkdirRun cwd fs args fs' created msgs ->
    MkdirRun cwd fs (arg :: args) fs' created
             (("mkdir: cannot create directory '" ++ arg ++
               "': No such file or directory") :: msgs)
| run_create (fs : FsMap) (arg : string) (args : list string) (fs' : FsMap)
             (created : list FileSystemItem) (msgs : list string) :
    fileSystemItemExists fs (resolvePath cwd arg) = false ->
    itemDir (resolvePath cwd arg) = "/" \/
    fileSystemItemExists fs (itemDir (resolvePath cwd arg)) = true ->
    let node :=
      mkItem (resolvePath cwd arg) (baseName arg) directory None
             "drwxr-xr-x" "4096" in
    MkdirRun cwd (map_set (resolvePath cwd arg) node fs) args fs' created msgs ->
    MkdirRun cwd fs (arg :: args) fs' (node :: created) msgs.

(** mkdir, the rule on parents as the specification states it, for one
    argument: a path that is free and whose parent is not stored is
    refused with "No such file or directory". *)
Definition mkdirParentRule (st : State) (arg : string) : Prop :=
  let fullPath := resolvePath (currentDirectory st) arg in
  let msg :=
    "mkdir: cannot create directory '" ++ arg ++
    "': No such file or directory" in
  fileSystemItemExists (fileSystem st) fullPath = false ->
  fileSystemItemExists (fileSystem st) (itemDir fullPath) = false ->
  makeDirectory [arg] st
  = (st, Return (mkResult msg (Some msg) (currentDirectory st) false)).

(** A path cut before its last slash; [None] when it has no slash. *)
Fixpoint cutLastSlash (p : string) : option string :=
  match p with
  | EmptyString => None
  | String a rest =>
      match cutLastSlash rest with
      | Some pre => Some (String a pre)
      | None => if Ascii.eqb a "/" then Some "" else None
      end
  end.

(** The derived parent of a path: what stands before its last slash,
    the root when nothing does.  Stored paths are absolute; a path with
    no slash is counted under the root. *)
Definition derivedParent (p : string) : string :=
  match cutLastSlash p with
  | Some (String a pre) => String a pre
  | Some EmptyString => "/"
  | None => "/"
  end.

(** A path without its last character when that is a slash. *)
Fixpoint dropTrailingSlash (p : string) : string :=
  match p with
  | EmptyString => ""
  | String a rest =>
      match rest with
      | EmptyString => if Ascii.eqb a "/" then "" else p
      | String _ _ => String a (dropTrailingSlash rest)
      end
  end.

(** A directory path, trailing-slash-normalized; the root stays. *)
Definition normalized (dir : string) : string :=
  if dir =? "/" then "/" else dropTrailingSlash dir.

(** [listChildren]: the nodes whose derived parent equals the
    trailing-slash-normalized directory path, the directory path itself
    excluded. *)
Definition listChildren (m : FsMap) (dir : string) : list FileSystemItem :=
  filter (fun item =>
            (derivedParent (path item) =? normalized dir) &&
            negb (path item =? normalized dir))
         (map_values m).

(** echo: words joined by single spaces: the first word, then every
    further word after a space. *)
Definition unwords (words : list string) : string :=
  match words with
  | [] => ""
  | w :: rest => w ++ fold_right (fun x acc => " " ++ x ++ acc) "" rest
  end.

(** echo: a text with every double quote left out. *)
Definition stripQuotes (s : string) : string :=
  string_of_list_ascii
    (filter (fun c => negb (Ascii.eqb c Js.dquote)) (list_ascii_of_string s)).

(** The number of bytes of a text in UTF-8, for code units below 256:
    one byte below 128, two from 128 on. *)
Fixpoint utf8Length (s : string) : nat :=
  match s with
  | EmptyString => 0
  | String c rest =>
      (if (nat_of_ascii c <? 128)%nat then 1 else 2) + utf8Length rest
  end.

Fixpoint isAscii (s : string) : bool :=
  match s with
  | EmptyString => true
  | String c rest => (nat_of_ascii c <? 128)%nat && isAscii rest
  end.

(** echo with redirection, as stated: the size of the node written is
    the decimal byte length of its text. *)
Definition echoStoresByteLength (args : list string) (st : State) : Prop :=
  forall text filename node,
    redirection args = Some (text, filename) ->
    getFileSystemItem (fileSystem (fst (echo args st)))
                      (resolvePath (currentDirectory st) filename)
    = Some node ->
    size node
    = Js.toString (utf8Length (stripQuotes (unwords text))).

(** mv, as the specification words it: [cp], then the source deleted. *)
Definition cpThenDelete (src dst : string) (st : State) : State * Outcome :=
  let (st1, o) := copyFile [src; dst] st in
  let source := resolvePath (currentDirectory st) src in
  (withFileSystem st1 (snd (deleteFileSystemItem (fileSystem st1) source)), o).

(** The invariant of the data model: every node but the root has a
    directory node stored at its derived parent path. *)
Definition parentIsDirectory (m : FsMap) (item : FileSystemItem) : bool :=
  (path item =? "/") ||
  match map_get (itemDir (path item)) m with
  | Some parent => ItemType_eqb (type parent) directory
  | None => false
  end.

Definition parentsStored (m : FsMap) : bool :=
  forallb (parentIsDirectory m) (map_values m).

End Spec.

(** ** Predicates on states and command lines *)

Module Inv.
Import Schema Storage TerminalProcessor.

(** One entry per path, each stored under the path it carries. *)
Definition wellKeyed (m : FsMap) : Prop :=
  NoDup (map fst m) /\
  Forall (fun kv => path (snd kv) = fst kv) m.

(** An absolute path: it starts with a slash. *)
Definition absolute (p : string) : Prop := Js.startsWith p "/" = true.

Definition allAbsolute (m : FsMap) : Prop :=
  Forall (fun kv => absolute (fst kv)) m.

(** The command name of a line, as [executeCommand] reads it. *)
Definition commandName (command : string) : string :=
  hd "" (Js.splitSpaces (Js.trim command)).

(** The arguments of a line, as [executeCommand] reads them. *)
Definition commandArgs (command : string) : list string :=
  tl (Js.splitSpaces (Js.trim command)).

(** The names with a [case] of their own in [executeCommand]. *)
Definition knownCommands : list string :=
  [ "pwd"; "ls"; "cd"; "mkdir"; "touch"; "cat"; "echo"; "rm"; "clear";
    "help"; "curl"; "wget"; "git"; "python"; "python3"; "node"; "nodejs";
    "java"; "javac"; "gcc"; "g++"; "make"; "npm"; "pip"; "pip3"; "top";
    "htop"; "ps"; "df"; "free"; "uname"; "whoami"; "nano"; "vim"; "vi";
    "find"; "grep"; "tar"; "zip"; "unzip"; "cp"; "mv"; "chmod"; "ssh";
    "scp"; "rsync" ].

(** The names whose handler calls a mutator of the store. *)
Definition storeWriters : list string :=
  [ "mkdir"; "touch"; "echo"; "rm"; "wget"; "git"; "javac"; "gcc"; "g++";
    "cp"; "mv"; "chmod" ].

Fixpoint hasSpace (s : string) : bool :=
  match s with
  | EmptyString => false
  | String a s' => Js.isSpace a || hasSpace s'
  end.

(** Every stored path has its derived parent stored, unless that parent
    path is ['/']. *)
Definition parentsPresent (m : FsMap) : Prop :=
  Forall (fun kv =>
            itemDir (fst kv) = "/" \/
            fileSystemItemExists m (itemDir (fst kv)) = true) m.

(** A token: not empty, and free of white space. *)
Definition token (t : string) : Prop := t <> "" /\ hasSpace t = false.

End Inv.

(** * Properties *)

Import Schema Storage TerminalProcessor.

(** ** Strings *)

Lemma substring_all (s : string) : substring 0 (String.length s) s = s.
Proof.
  induction s as [|a s IH]; simpl; [reflexivity | now rewrite IH].
Qed.

Lemma substringFrom_tail (a : ascii) (s : string) :
  Js.substringFrom 1 (String a s) = s.
Proof.
  unfold Js.substringFrom. simpl. rewrite Nat.sub_0_r. apply substring_all.
Qed.

Lemma startsWith_char (c a : ascii) (s : string) :
  Js.startsWith (String a s) (String c "") = Ascii.eqb a c.
Proof.
  unfold Js.startsWith. simpl.
  destruct (Ascii.eqb_spec a c) as [->|Hne].
  - destruct (ascii_dec c c); [now destruct s | congruence].
  - destruct (ascii_dec c a); [congruence | reflexivity].
Qed.

Lemma startsWith_char2 (c d a : ascii) (s : string) :
  Js.startsWith (String a s) (String c (String d "")) =
  Ascii.eqb a c &&
  match s with
  | EmptyString => false
  | String b _ => Ascii.eqb b d
  end.
Proof.
  unfold Js.startsWith. simpl.
  destruct (Ascii.eqb_spec a c) as [->|Hne].
  - destruct (ascii_dec c c); [|congruence]. simpl.
    destruct s as [|b s]; [reflexivity|].
    destruct (Ascii.eqb_spec b d) as [->|Hne].
    + simpl. destruct (ascii_dec d d); [now destruct s | congruence].
    + simpl. destruct (ascii_dec d b); [congruence | reflexivity].
  - destruct (ascii_dec c a); [congruence | reflexivity].
Qed.

(** ** Path resolution *)

Lemma resolvePath_resolve (cwd raw : string) :
  resolvePath cwd raw = Spec.resolve cwd raw.
Proof.
  unfold resolvePath, Spec.resolve, Spec.relative.
  destruct raw as [|c rest]; [reflexivity|].
  rewrite startsWith_char, startsWith_char2.
  destruct (Ascii.eqb_spec c "/") as [->|Hslash]; [reflexivity|].
  destruct (Ascii.eqb_spec c "~") as [->|Htilde]; simpl.
  - destruct rest as [|c' rest']; [reflexivity|].
    destruct (Ascii.eqb_spec c' "/") as [->|Hc'].
    + now rewrite substringFrom_tail.
    + reflexivity.
  - destruct (Ascii.eqb_spec c "~"); [congruence | reflexivity].
Qed.

(** C2. [resolvePath] is a function of [(currentDirectory, raw)] alone and
    follows the five rules of the path resolver in order: a leading ['/']
    returns [raw] unchanged, ['~'] is the home directory, ['~/...'] is the
    home directory followed by what comes after the ['~'], and otherwise
    [raw] is appended to the current directory (to ['/'] itself at the
    root).  Dot segments and doubled slashes are carried over as they
    are. *)
Theorem resolvePath_spec :
  (forall cwd raw, resolvePath cwd raw = Spec.resolve cwd raw) /\
  (forall cwd rest, resolvePath cwd (String "/" rest) = String "/" rest) /\
  (forall cwd, resolvePath cwd "~" = "/home/user") /\
  (forall cwd rest,
      resolvePath cwd (String "~" (String "/" rest))
      = "/home/user" ++ String "/" rest) /\
  resolvePath "/home/user" "notes.txt" = "/home/user/notes.txt" /\
  resolvePath "/home/user" "/etc/hosts" = "/etc/hosts" /\
  resolvePath "/home/user" "~" = "/home/user" /\
  resolvePath "/" "notes.txt" = "/notes.txt" /\
  resolvePath "/home/user" ".." = "/home/user/.." /\
  resolvePath "/home/user" "./a//b/../c" = "/home/user/./a//b/../c" /\
  resolvePath "/home/user" "/etc//./hosts/.." = "/etc//./hosts/..".
Proof.
  split; [exact resolvePath_resolve|].
  split; [intros; now rewrite resolvePath_resolve|].
  split; [intros; now rewrite resolvePath_resolve|].
  split; [intros; now rewrite resolvePath_resolve|].
  repeat split; reflexivity.
Qed.

(** ** The store *)

Lemma map_get_set_same (k : string) (v : FileSystemItem) (m : FsMap) :
  map_get k (map_set k v m) = Some v.
Proof.
  induction m as [|[k' v'] m IH]; simpl.
  - now rewrite String.eqb_refl.
  - destruct (String.eqb_spec k' k) as [->|Hne]; simpl.
    + now rewrite String.eqb_refl.
    + destruct (String.eqb_spec k' k); [congruence | exact IH].
Qed.

Lemma map_get_set_other (k k' : string) (v : FileSystemItem) (m : FsMap) :
  k <> k' -> map_get k' (map_set k v m) = map_get k' m.
Proof.
  intros Hne. induction m as [|[k0 v0] m IH]; simpl.
  - destruct (String.eqb_spec k k'); [congruence | reflexivity].
  - destruct (String.eqb_spec k0 k) as [->|Hk0]; simpl.
    + destruct (String.eqb_spec k k'); [congruence | reflexivity].
    + destruct (String.eqb_spec k0 k'); [reflexivity | exact IH].
Qed.

Lemma map_get_delete_same (k : string) (m : FsMap) :
  map_get k (map_delete k m) = None.
Proof.
  unfold map_delete. induction m as [|[k' v'] m IH]; simpl; [reflexivity|].
  destruct (String.eqb_spec k' k) as [->|Hne]; simpl; [exact IH|].
  destruct (String.eqb_spec k' k); [congruence | exact IH].
Qed.

Lemma map_get_delete_other (k k' : string) (m : FsMap) :
  k <> k' -> map_get k' (map_delete k m) = map_get k' m.
Proof.
  intros Hne. unfold map_delete.
  induction m as [|[k0 v0] m IH]; simpl; [reflexivity|].
  destruct (String.eqb_spec k0 k) as [->|Hk0]; simpl.
  - destruct (String.eqb_spec k k'); [congruence | exact IH].
  - destruct (String.eqb_spec k0 k'); [reflexivity | exact IH].
Qed.

Lemma map_has_get (k : string) (m : FsMap) :
  map_has k m = true <-> exists v, map_get k m = Some v.
Proof.
  unfold map_has. destruct (map_get k m) as [v|].
  - split; [eauto | reflexivity].
  - split; [discriminate | intros [v Hv]; discriminate].
Qed.

Lemma map_has_false (k : string) (m : FsMap) :
  map_has k m = false <-> map_get k m = None.
Proof.
  unfold map_has. destruct (map_get k m); split; congruence.
Qed.

(** ** The shape of results and the upkeep of the history *)

(** A result is well formed for the state it is returned with: the error
    is there exactly on failure, and the directory is the session's. *)
Definition shaped (st : State) (r : CommandResult) : Prop :=
  ((exists e, error r = Some e) <-> success r = false) /\
  Schema.currentDirectory r = currentDirectory st.

(** What every handler keeps: the history is not touched, and a returned
    result is well formed for the state after the call. *)
Definition handled (st : State) (p : State * Outcome) : Prop :=
  commandHistory (fst p) = commandHistory st /\
  match snd p with
  | Return r => shaped (fst p) r
  | Throw _ => True
  end.

Lemma shaped_ok (st : State) (out : string) : shaped st (ok st out).
Proof.
  split; [|reflexivity]. simpl.
  split; [intros [e He]; discriminate | discriminate].
Qed.

Lemma shaped_failed (st : State) (out err : string) :
  shaped st (failed st out err).
Proof.
  split; [|reflexivity]. simpl. split; [reflexivity | eauto].
Qed.

Lemma shaped_aggregate (st : State) (results : list string) :
  shaped st (aggregate st results).
Proof.
  split; [|reflexivity]. destruct results as [|m ms]; simpl.
  - split; [intros [e He]; discriminate | discriminate].
  - split; [reflexivity | eauto].
Qed.

(** Case analysis on the scrutinee at the head of a result. *)
Ltac shape_cases :=
  repeat first
    [ apply shaped_ok
    | apply shaped_failed
    | apply shaped_aggregate
    | match goal with
      | |- shaped _ (match ?x with _ => _ end) => destruct x
      | |- shaped _ (if ?b then _ else _) => destruct b
      end ].

Lemma handled_return (st st' : State) (r : CommandResult) :
  commandHistory st' = commandHistory st -> shaped st' r ->
  handled st (st', Return r).
Proof. intros H1 H2. split; assumption. Qed.

Lemma handled_throw (st st' : State) (e : JsError) :
  commandHistory st' = commandHistory st -> handled st (st', Throw e).
Proof. intros H1. split; [assumption | exact I]. Qed.

Lemma handled_stay (st : State) (r : CommandResult) :
  shaped st r -> handled st (stay st r).
Proof. intros H. now apply handled_return. Qed.

Ltac handled_cases :=
  repeat first
    [ apply handled_stay; shape_cases
    | apply handled_return; [reflexivity | shape_cases]
    | apply handled_throw; reflexivity
    | match goal with
      | |- handled _ (match ?x with _ => _ end) => destruct x
      | |- handled _ (if ?b then _ else _) => destruct b
      end ].

Section Handlers.

Variable host : Host.

Lemma listDirectory_shaped args st : shaped st (listDirectory args st).
Proof. unfold listDirectory. cbv zeta. shape_cases. Qed.

Lemma readFile_shaped p st : shaped st (readFile p st).
Proof. unfold readFile. cbv zeta. shape_cases. Qed.

Lemma executeCurl_shaped args st : shaped st (executeCurl host args st).
Proof. unfold executeCurl. cbv zeta. shape_cases. Qed.

Lemma executePython_shaped args st : shaped st (executePython args st).
Proof. unfold executePython. cbv zeta. shape_cases. Qed.

Lemma executeNode_shaped args st : shaped st (executeNode args st).
Proof. unfold executeNode. cbv zeta. shape_cases. Qed.

Lemma executeJava_shaped args st : shaped st (executeJava args st).
Proof. unfold executeJava. cbv zeta. shape_cases. Qed.

Lemma executeNpm_shaped args st : shaped st (executeNpm args st).
Proof. unfold executeNpm. cbv zeta. shape_cases. Qed.

Lemma executePip_shaped args st : shaped st (executePip args st).
Proof. unfold executePip. cbv zeta. shape_cases. Qed.

Lemma showSystemInfo_shaped args st : shaped st (showSystemInfo args st).
Proof. unfold showSystemInfo. cbv zeta. shape_cases. Qed.

Lemma grepCommand_shaped args st : shaped st (grepCommand args st).
Proof. unfold grepCommand. cbv zeta. shape_cases. Qed.

Lemma executeTar_shaped args st : shaped st (executeTar args st).
Proof. unfold executeTar. cbv zeta. shape_cases. Qed.

Lemma executeZip_shaped c args st : shaped st (executeZip c args st).
Proof. unfold executeZip. cbv zeta. shape_cases. Qed.

Lemma executeSSH_shaped args st : shaped st (executeSSH args st).
Proof. unfold executeSSH. cbv zeta. shape_cases. Qed.

Lemma executeSCP_shaped args st : shaped st (executeSCP args st).
Proof. unfold executeSCP. cbv zeta. shape_cases. Qed.

Lemma executeRsync_shaped args st : shaped st (executeRsync args st).
Proof. unfold executeRsync. cbv zeta. shape_cases. Qed.

Lemma changeDirectory_handled p st : handled st (changeDirectory p st).
Proof. unfold changeDirectory. cbv zeta. handled_cases. Qed.

Lemma makeDirectory_handled args st : handled st (makeDirectory args st).
Proof. unfold makeDirectory. cbv zeta. handled_cases. Qed.

Lemma createFile_handled args st : handled st (createFile args st).
Proof. unfold createFile. cbv zeta. handled_cases. Qed.

Lemma echo_handled args st : handled st (echo args st).
Proof. unfold echo. cbv zeta. handled_cases. Qed.

Lemma removeFile_handled args st : handled st (removeFile args st).
Proof. unfold removeFile. cbv zeta. handled_cases. Qed.

Lemma executeWget_handled args st : handled st (executeWget host args st).
Proof. unfold executeWget. cbv zeta. handled_cases. Qed.

Lemma executeGit_handled args st : handled st (executeGit args st).
Proof. unfold executeGit. cbv zeta. handled_cases. Qed.

Lemma executeJavac_handled args st : handled st (executeJavac args st).
Proof. unfold executeJavac. cbv zeta. handled_cases. Qed.

Lemma executeGcc_handled c args st : handled st (executeGcc c args st).
Proof. unfold executeGcc. cbv zeta. handled_cases. Qed.

Lemma findFiles_handled args st : handled st (st, findFiles args st).
Proof. unfold findFiles. cbv zeta. 
  destruct (if Js.member "-name" args then _ else _) as [n|].
  - handled_cases.
  - destruct (getDirectoryContents _ _); handled_cases.
Qed.

Lemma copyFile_handled args st : handled st (copyFile args st).
Proof. unfold copyFile. cbv zeta. handled_cases. Qed.

Lemma moveFile_handled args st : handled st (moveFile args st).
Proof. unfold moveFile. cbv zeta. handled_cases. Qed.

Lemma changePermissions_handled args st :
  handled st (changePermissions args st).
Proof. unfold changePermissions. cbv zeta. handled_cases. Qed.

End Handlers.

Create HintDb handlers.

#[local] Hint Resolve handled_stay shaped_ok shaped_failed
  listDirectory_shaped readFile_shaped executeCurl_shaped
  executePython_shaped executeNode_shaped executeJava_shaped
  executeNpm_shaped executePip_shaped showSystemInfo_shaped
  grepCommand_shaped executeTar_shaped executeZip_shaped executeSSH_shaped
  executeSCP_shaped executeRsync_shaped changeDirectory_handled
  makeDirectory_handled createFile_handled echo_handled removeFile_handled
  executeWget_handled executeGit_handled executeJavac_handled
  executeGcc_handled findFiles_handled copyFile_handled moveFile_handled
  changePermissions_handled : handlers.

Lemma dispatch_handled (host : Host) (cmd : string) (args : list string)
      (st : State) :
  handled st (dispatch host cmd args st).
Proof.
  unfold dispatch, showHelp, executeMake, showSystemResources, showProcesses,
    showDiskUsage, showMemoryUsage, openEditor.
  repeat match goal with
         | |- handled _ (if ?b then _ else _) =>
             destruct b; [solve [auto with handlers]|]
         end.
  auto with handlers.
Qed.

Lemma caught_shaped (st : State) (e : JsError) : shaped st (caught st e).
Proof. apply shaped_failed. Qed.

Lemma executeCommand_blank (host : Host) (command : string) (st : State) :
  Js.trim command = "" ->
  executeCommand host command st = (st, mkResult "" None (currentDirectory st) true).
Proof.
  intros H. unfold executeCommand. cbv zeta. now rewrite H.
Qed.

Lemma executeCommand_shaped (host : Host) (command : string) (st : State) :
  shaped (fst (executeCommand host command st))
         (snd (executeCommand host command st)).
Proof.
  unfold executeCommand. cbv zeta.
  destruct (Js.trim command =? ""); [apply shaped_ok|].
  match goal with
  | |- context [dispatch ?h ?c ?a ?s] =>
      pose proof (dispatch_handled h c a s) as [_ H];
      destruct (dispatch h c a s) as [st' [r|e]]
  end; simpl in *; [exact H | apply caught_shaped].
Qed.

Lemma executeCommand_history (host : Host) (command : string) (st : State) :
  Js.trim command <> "" ->
  commandHistory (fst (executeCommand host command st))
  = (commandHistory st ++ [Js.trim command])%list.
Proof.
  intros Hne. unfold executeCommand. cbv zeta.
  destruct (String.eqb_spec (Js.trim command) ""); [congruence|].
  match goal with
  | |- context [dispatch ?h ?c ?a ?s] =>
      pose proof (dispatch_handled h c a s) as [H _];
      destruct (dispatch h c a s) as [st' [r|e]]
  end; simpl in *; exact H.
Qed.

Lemma runAll_history (host : Host) (commands : list string) (st : State) :
  Forall (fun c => Js.trim c <> "") commands ->
  commandHistory (runAll host commands st)
  = (commandHistory st ++ map Js.trim commands)%list.
Proof.
  intros H. revert st.
  induction H as [|c cs Hc Hcs IH]; intros st; simpl.
  - now rewrite app_nil_r.
  - unfold runAll in *. simpl. rewrite IH.
    rewrite executeCommand_history by assumption.
    now rewrite <- app_assoc.
Qed.

(** C6. Whatever the command line and the state, the result of
    [executeCommand] carries an error exactly when [success] is false, and
    its [currentDirectory] is the working directory of the session after
    the call.  The three kinds of failure are shown on an unknown command,
    on a handler error and on an exception caught by [executeCommand]. *)
Theorem result_shape (host : Host) (command : string) (st : State) :
  let st' := fst (executeCommand host command st) in
  let r := snd (executeCommand host command st) in
  (((exists e, error r = Some e) <-> success r = false) /\
   Schema.currentDirectory r = currentDirectory st') /\
  snd (executeCommand host "frobnicate" initialState)
  = mkResult "Command not found: frobnicate"
             (Some "frobnicate: command not found") "/home/user" false /\
  snd (executeCommand host "cat missing.txt" initialState)
  = mkResult "cat: missing.txt: No such file or directory"
             (Some "No such file or directory") "/home/user" false /\
  snd (executeCommand host "find /home/user -name" initialState)
  = mkResult
      "Error executing command: TypeError: Cannot read properties of undefined (reading 'replace')"
      (Some "Cannot read properties of undefined (reading 'replace')")
      "/home/user" false.
Proof.
  cbv zeta. split; [apply executeCommand_shaped|].
  repeat split; vm_compute; reflexivity.
Qed.

(** C7. A command line that is blank once trimmed returns a successful
    result with empty output and leaves [commandHistory] as it is; after
    any sequence of command lines that are not blank, [commandHistory] is
    the former history followed by the trimmed lines in the order of the
    calls, so a fresh session holds exactly as many entries as calls. *)
Theorem history_append_only (host : Host) (commands : list string)
        (st : State) :
  Forall (fun c => Js.trim c <> "") commands ->
  (forall blank,
      Js.trim blank = "" ->
      executeCommand host blank st
      = (st, mkResult "" None (currentDirectory st) true)) /\
  commandHistory (runAll host commands st)
  = (commandHistory st ++ map Js.trim commands)%list /\
  commandHistory (runAll host commands initialState) = map Js.trim commands /\
  List.length (commandHistory (runAll host commands initialState))
  = List.length commands.
Proof.
  intros H. split; [intros blank Hb; now apply executeCommand_blank|].
  split; [now apply runAll_history|].
  assert (E : commandHistory (runAll host commands initialState)
              = map Js.trim commands)
    by (now rewrite runAll_history).
  split; [exact E|]. now rewrite E, length_map.
Qed.

Lemma history_append_only_witness :
  Forall (fun c => Js.trim c <> "") ["ls"; "  pwd "; "ls"; "nosuch x"] /\
  commandHistory
    (runAll Spec.sampleHost ["ls"; "  pwd "; "ls"; "nosuch x"] initialState)
  = ["ls"; "pwd"; "ls"; "nosuch x"].
Proof.
  assert (H : Forall (fun c => Js.trim c <> "")
                     ["ls"; "  pwd "; "ls"; "nosuch x"])
    by (repeat constructor; vm_compute; discriminate).
  split; [exact H|].
  exact (proj1 (proj2 (proj2
    (history_append_only Spec.sampleHost initialState H)))).
Defined.

(** ** cd *)

(** C3. [cd] resolves its argument, or ['/home/user'] when there is none,
    against the current directory, by the five rules of the path
    resolver: an argument that starts with neither ['/'] nor ['~'] names
    the entry of that name under the current directory.  When no node is
    stored at the resolved path the result fails with the error "No such
    file or directory"; when the node is a file it fails with "Not a
    directory"; in both cases the state, and so [currentDirectory], is
    unchanged.  When the node is a directory, the resolved path becomes
    [currentDirectory] and the result succeeds with empty output.  The
    instances go through [executeCommand]: a relative argument from the
    bootstrap directory, from the root and from [/home], the home forms,
    no argument, a missing entry and the specification's [cd f.txt]. *)
Theorem cd_contract (host : Host) (args : list string) (st : State) :
  let p := Js.or_else (nth_error args 0) "/home/user" in
  let fullPath := Spec.resolve (currentDirectory st) p in
  dispatch host "cd" args st
  = match getFileSystemItem (fileSystem st) fullPath with
    | None =>
        (st, Return (mkResult ("cd: no such file or directory: " ++ p)
                              (Some "No such file or directory")
                              (currentDirectory st) false))
    | Some item =>
        match type item with
        | file =>
            (st, Return (mkResult ("cd: not a directory: " ++ p)
                                  (Some "Not a directory")
                                  (currentDirectory st) false))
        | directory =>
            ({| fileSystem := fileSystem st;
                currentDirectory := fullPath;
                commandHistory := commandHistory st |},
             Return (mkResult "" None fullPath true))
        end
    end /\
  (nth_error args 0 = None -> fullPath = "/home/user") /\
  (Js.startsWith p "/" = false -> Js.startsWith p "~" = false ->
   fullPath = if currentDirectory st =? "/" then "/" ++ p
              else currentDirectory st ++ "/" ++ p) /\
  executeCommand host "cd Documents" initialState
  = ({| fileSystem := initializeFileSystem;
        currentDirectory := "/home/user/Documents";
        commandHistory := ["cd Documents"] |},
     mkResult "" None "/home/user/Documents" true) /\
  currentDirectory (runAll host ["cd /"; "cd home"; "cd user"] initialState)
  = "/home/user" /\
  currentDirectory (runAll host ["cd /home"; "cd user/Projects"] initialState)
  = "/home/user/Projects" /\
  currentDirectory (runAll host ["cd /home"; "cd ~/Documents"] initialState)
  = "/home/user/Documents" /\
  currentDirectory (runAll host ["cd /"; "cd ~"] initialState) = "/home/user" /\
  currentDirectory (runAll host ["cd /home"; "cd"] initialState)
  = "/home/user" /\
  executeCommand host "cd Documents" (runAll host ["cd /home"] initialState)
  = ({| fileSystem := initializeFileSystem;
        currentDirectory := "/home";
        commandHistory := ["cd /home"; "cd Documents"] |},
     mkResult "cd: no such file or directory: Documents"
              (Some "No such file or directory") "/home" false) /\
  let st1 := runAll host ["touch f.txt"] initialState in
  snd (executeCommand host "cd f.txt" st1)
  = mkResult "cd: not a directory: f.txt" (Some "Not a directory")
             "/home/user" false /\
  currentDirectory (fst (executeCommand host "cd f.txt" st1))
  = currentDirectory st1.
Proof.
  cbv zeta. split; [|split; [|split]].
  - rewrite <- resolvePath_resolve.
    change (dispatch host "cd" args st)
      with (changeDirectory (Js.or_else (nth_error args 0) "/home/user") st).
    unfold changeDirectory, fileSystemItemExists, getFileSystemItem, map_has.
    cbv zeta.
    destruct (map_get _ (fileSystem st)) as [item|]; [|reflexivity].
    destruct (type item); reflexivity.
  - intros ->. reflexivity.
  - intros Hslash Htilde. unfold Spec.resolve, Spec.relative.
    destruct (Js.or_else (nth_error args 0) "/home/user") as [|c rest];
      [reflexivity|].
    rewrite startsWith_char in Hslash, Htilde. now rewrite Hslash, Htilde.
  - repeat split; vm_compute; reflexivity.
Qed.

Lemma cd_contract_witness :
  nth_error ["Projects"] 0 <> None /\
  Js.startsWith "Projects" "/" = false /\
  Js.startsWith "Projects" "~" = false /\
  Spec.resolve (currentDirectory initialState)
               (Js.or_else (nth_error ["Projects"] 0) "/home/user")
  = "/home/user/Projects".
Proof.
  split; [discriminate|]. split; [reflexivity|]. split; [reflexivity|].
  exact (proj1 (proj2 (proj2
    (cd_contract Spec.sampleHost ["Projects"] initialState)))
    eq_refl eq_refl).
Defined.

(** ** echo *)

Lemma redirection_indexOf (args : list string) :
  Spec.redirection args
  = match Js.indexOf ">" args with
    | Some i =>
        if (i <? List.length args - 1)%nat then
          match nth_error args (i + 1) with
          | Some filename => Some (firstn i args, filename)
          | None => None
          end
        else None
    | None => None
    end.
Proof.
  induction args as [|a rest IH]; [reflexivity|].
  simpl Spec.redirection. simpl Js.indexOf.
  destruct (a =? ">").
  - destruct rest as [|f rest']; reflexivity.
  - rewrite IH. destruct (Js.indexOf ">" rest) as [i|]; [|reflexivity].
    replace (S i <? List.length (a :: rest) - 1)%nat
      with (i <? List.length rest - 1)%nat.
    + destruct (i <? List.length rest - 1)%nat; [|reflexivity].
      simpl. destruct (nth_error rest (i + 1)); reflexivity.
    + simpl. rewrite Nat.sub_0_r.
      destruct (Nat.ltb_spec i (List.length rest - 1)),
               (Nat.ltb_spec (S i) (List.length rest)); (reflexivity || lia).
Qed.

Lemma append_empty_r (s : string) : s ++ "" = s.
Proof. induction s as [|a s IH]; simpl; [reflexivity | now rewrite IH]. Qed.

Lemma join_unwords (words : list string) :
  Js.join " " words = Spec.unwords words.
Proof.
  induction words as [|w rest IH]; [reflexivity|].
  destruct rest as [|x rest].
  - simpl. now rewrite append_empty_r.
  - change (Js.join " " (w :: x :: rest))
      with (w ++ " " ++ Js.join " " (x :: rest)).
    rewrite IH. reflexivity.
Qed.

Lemma removeAll_stripQuotes (s : string) :
  Js.removeAll Js.dquote s = Spec.stripQuotes s.
Proof.
  unfold Spec.stripQuotes. induction s as [|a s IH]; [reflexivity|].
  simpl. destruct (Ascii.eqb a Js.dquote); simpl; now rewrite IH.
Qed.

Lemma utf8Length_ascii (s : string) :
  Spec.isAscii s = true -> Spec.utf8Length s = String.length s.
Proof.
  induction s as [|c s IH]; simpl; [reflexivity|].
  intros H. apply andb_true_iff in H. destruct H as [-> H].
  now rewrite IH.
Qed.

(** C5, as stated, fails on text outside ASCII: for [echo é > u.txt],
    with [é] the single code unit 233, the node written has size ["1"],
    and the text takes two bytes. *)
Lemma echo_byte_length_counterexample :
  ~ Spec.echoStoresByteLength [String "233" ""; ">"; "u.txt"] initialState.
Proof.
  intros H.
  specialize (H [String "233"%char ""] "u.txt"
                (mkItem "/home/user/u.txt" "u.txt" file
                        (Some (String "233"%char "")) "-rw-r--r--" "1")
                eq_refl eq_refl).
  vm_compute in H. discriminate.
Qed.

(** C5, amended.  [echo] never fails.  Without a [>] token followed by a
    file name it prints the arguments joined by single spaces, every
    double quote removed, and changes nothing.  With one, the text before
    the first [>], joined and stripped in the same way, becomes the
    content of a file node stored at the resolved path of the file name
    (created, or put in place of the node that was there), its size the
    decimal length of the text in code units, which is its byte length
    when the text is ASCII; the output is empty.  The instances go
    through [executeCommand]: several words with quotes, a [>] in last
    place, the specification's [echo "hi" > out.txt], a text of several
    words written under a directory, an empty text, and a text outside
    ASCII. *)
Theorem echo_contract (host : Host) (args : list string) (st : State) :
  match Spec.redirection args with
  | None =>
      echo args st
      = (st, Return (mkResult (Spec.stripQuotes (Spec.unwords args))
                              None (currentDirectory st) true))
  | Some (text, filename) =>
      let content := Spec.stripQuotes (Spec.unwords text) in
      let fullPath := Spec.resolve (currentDirectory st) filename in
      let node :=
        mkItem fullPath (baseName filename) file (Some content) "-rw-r--r--"
               (Js.toString (String.length content)) in
      exists st',
        echo args st
        = (st', Return (mkResult "" None (currentDirectory st) true)) /\
        fileSystem st' = map_set fullPath node (fileSystem st) /\
        getFileSystemItem (fileSystem st') fullPath = Some node /\
        currentDirectory st' = currentDirectory st
  end /\
  (forall s, Spec.isAscii s = true -> Spec.utf8Length s = String.length s) /\
  snd (executeCommand host
         ("echo  one " ++ q ++ "two" ++ q ++ "   th" ++ q ++ "ree") initialState)
  = mkResult "one two three" None "/home/user" true /\
  snd (executeCommand host "echo a b >" initialState)
  = mkResult "a b >" None "/home/user" true /\
  getFileSystemItem
    (fileSystem
       (fst (executeCommand host ("echo " ++ q ++ "hi" ++ q ++ " > out.txt")
                            initialState)))
    "/home/user/out.txt"
  = Some (mkItem "/home/user/out.txt" "out.txt" file (Some "hi")
                 "-rw-r--r--" "2") /\
  executeCommand host
    ("echo one " ++ q ++ "two three" ++ q ++ " > Documents/n.txt > x")
    (runAll host ["cd /home"; "cd user"] initialState)
  = ({| fileSystem :=
          (initializeFileSystem ++
           [("/home/user/Documents/n.txt",
             mkItem "/home/user/Documents/n.txt" "n.txt" file
                    (Some "one two three") "-rw-r--r--" "13")])%list;
        currentDirectory := "/home/user";
        commandHistory :=
          ["cd /home"; "cd user";
           "echo one " ++ q ++ "two three" ++ q ++ " > Documents/n.txt > x"] |},
     mkResult "" None "/home/user" true) /\
  getFileSystemItem
    (fileSystem (fst (executeCommand host "echo > Documents" initialState)))
    "/home/user/Documents"
  = Some (mkItem "/home/user/Documents" "Documents" file (Some "")
                 "-rw-r--r--" "0") /\
  getFileSystemItem
    (fileSystem
       (fst (executeCommand host ("echo " ++ String "233" "" ++ " > u.txt")
                            initialState)))
    "/home/user/u.txt"
  = Some (mkItem "/home/user/u.txt" "u.txt" file (Some (String "233" ""))
                 "-rw-r--r--" "1").
Proof.
  split; [|split; [exact utf8Length_ascii | repeat split; vm_compute; reflexivity]].
  rewrite redirection_indexOf. unfold echo.
  destruct args as [|a rest]; [reflexivity|].
  change (List.length (a :: rest) =? 0)%nat with false. cbv iota.
  rewrite <- removeAll_stripQuotes, <- join_unwords.
  destruct (Js.indexOf ">" (a :: rest)) as [i|]; [|reflexivity].
  destruct (i <? List.length (a :: rest) - 1)%nat eqn:Hlt; [|reflexivity].
  destruct (nth_error (a :: rest) (i + 1)) as [filename|] eqn:Hn.
  - cbv zeta. rewrite <- removeAll_stripQuotes, <- join_unwords.
    rewrite <- resolvePath_resolve.
    eexists. split; [reflexivity|]. simpl fileSystem.
    unfold createFileSystemItem, getFileSystemItem. simpl path.
    split; [reflexivity|]. split; [apply map_get_set_same | reflexivity].
  - apply nth_error_None in Hn. apply Nat.ltb_lt in Hlt. simpl in Hn, Hlt. lia.
Qed.

Lemma echo_contract_witness :
  Spec.isAscii "one two three" = true /\
  Spec.utf8Length "one two three" = 13.
Proof.
  split; [reflexivity|].
  exact (proj1 (proj2 (echo_contract Spec.sampleHost [] initialState))
               "one two three" eq_refl).
Defined.

(** ** cp and mv *)

(** C8. When a node is stored at the resolved source, [mv src dst] leaves
    the store that [cp src dst] followed by the deletion of the resolved
    source leaves: [cp] stores at the resolved destination a node with the
    kind, content, permissions and size of the source, [mv] does the same
    and then removes the source node; both succeed with empty output and
    touch no other path.  When no node is stored at the source, both fail
    with their "cannot stat" message and leave the state as it is. *)
Theorem mv_refines_cp_then_delete (src dst : string) (st : State) :
  let source := resolvePath (currentDirectory st) src in
  let dest := resolvePath (currentDirectory st) dst in
  match getFileSystemItem (fileSystem st) source with
  | Some node =>
      let copy :=
        mkItem dest (baseName dst) (type node) (content node)
               (permissions node) (size node) in
      let afterCp := fst (copyFile [src; dst] st) in
      let afterMv := fst (moveFile [src; dst] st) in
      moveFile [src; dst] st = Spec.cpThenDelete src dst st /\
      snd (copyFile [src; dst] st)
      = Return (mkResult "" None (currentDirectory st) true) /\
      snd (moveFile [src; dst] st)
      = Return (mkResult "" None (currentDirectory st) true) /\
      getFileSystemItem (fileSystem afterCp) dest = Some copy /\
      fileSystem afterMv = map_delete source (fileSystem afterCp) /\
      getFileSystemItem (fileSystem afterMv) source = None /\
      (dest <> source ->
       getFileSystemItem (fileSystem afterMv) dest = Some copy) /\
      (forall p, p <> source -> p <> dest ->
                 getFileSystemItem (fileSystem afterMv) p
                 = getFileSystemItem (fileSystem st) p)
  | None =>
      copyFile [src; dst] st
      = (st, Return (mkResult
                       ("cp: cannot stat '" ++ src ++
                        "': No such file or directory")
                       (Some "File not found") (currentDirectory st) false)) /\
      moveFile [src; dst] st
      = (st, Return (mkResult
                       ("mv: cannot stat '" ++ src ++
                        "': No such file or directory")
                       (Some "File not found") (currentDirectory st) false))
  end.
Proof.
  cbv zeta. unfold Spec.cpThenDelete, moveFile, copyFile.
  destruct (getFileSystemItem (fileSystem st)
                              (resolvePath (currentDirectory st) src))
    as [node|] eqn:Hsrc; [|split; reflexivity].
  cbv zeta. simpl fst. simpl snd.
  unfold getFileSystemItem, createFileSystemItem. simpl fileSystem. simpl path.
  repeat split.
  - apply map_get_set_same.
  - apply map_get_delete_same.
  - intros Hne. rewrite map_get_delete_other by congruence.
    apply map_get_set_same.
  - intros p Hps Hpd. rewrite map_get_delete_other by congruence.
    apply map_get_set_other. congruence.
Qed.

Lemma mv_refines_cp_then_delete_witness :
  let st := fst (createFile ["a.txt"] initialState) in
  "/home/user/b.txt" <> "/home/user/a.txt" /\
  getFileSystemItem (fileSystem (fst (moveFile ["a.txt"; "b.txt"] st)))
                    "/home/user/b.txt"
  = Some (mkItem "/home/user/b.txt" "b.txt" file (Some "") "-rw-r--r--" "0").
Proof.
  cbv zeta. split; [discriminate|].
  exact (proj1 (proj2 (proj2 (proj2 (proj2 (proj2 (proj2
    (mv_refines_cp_then_delete "a.txt" "b.txt"
       (fst (createFile ["a.txt"] initialState)))))))))
    ltac:(discriminate)).
Defined.

(** ** mkdir *)

Section MkdirStep.

Variables (cwd : string) (fs : FsMap) (results : list string) (arg : string).

Local Abbreviation fullPath := (resolvePath cwd arg).

Lemma mkdirStep_exists :
  fileSystemItemExists fs fullPath = true ->
  mkdirStep cwd (fs, results) arg
  = (fs, Js.push results ("mkdir: cannot create directory '" ++ arg ++
                          "': File exists")).
Proof. intros H. unfold mkdirStep. cbv zeta. now rewrite H. Qed.

Lemma mkdirStep_no_parent :
  fileSystemItemExists fs fullPath = false ->
  itemDir fullPath <> "/" ->
  fileSystemItemExists fs (itemDir fullPath) = false ->
  mkdirStep cwd (fs, results) arg
  = (fs, Js.push results ("mkdir: cannot create directory '" ++ arg ++
                          "': No such file or directory")).
Proof.
  intros H Hroot Hpar. unfold mkdirStep. cbv zeta. rewrite H.
  fold (itemDir fullPath). rewrite Hpar.
  now destruct (String.eqb_spec (itemDir fullPath) "/").
Qed.

Lemma mkdirStep_create :
  fileSystemItemExists fs fullPath = false ->
  itemDir fullPath = "/" \/ fileSystemItemExists fs (itemDir fullPath) = true ->
  mkdirStep cwd (fs, results) arg
  = (map_set fullPath
             (mkItem fullPath (baseName arg) directory None
                     "drwxr-xr-x" "4096") fs,
     results).
Proof.
  intros H Hpar. unfold mkdirStep. cbv zeta. rewrite H.
  fold (itemDir fullPath).
  destruct Hpar as [Hroot|Hpar].
  - rewrite Hroot, String.eqb_refl, andb_false_r. reflexivity.
  - rewrite Hpar. reflexivity.
Qed.

End MkdirStep.

Lemma mkdirStep_run (cwd : string) (args : list string) :
  forall (fs : FsMap) (results : list string),
  exists fs' created msgs,
    Spec.MkdirRun cwd fs args fs' created msgs /\
    fold_left (mkdirStep cwd) args (fs, results)
    = (fs', (results ++ msgs)%list).
Proof.
  induction args as [|arg args IH]; intros fs results.
  - exists fs, [], []. split; [constructor | now rewrite app_nil_r].
  - change (fold_left (mkdirStep cwd) (arg :: args) (fs, results))
      with (fold_left (mkdirStep cwd) args (mkdirStep cwd (fs, results) arg)).
    destruct (fileSystemItemExists fs (resolvePath cwd arg)) eqn:Hex.
    + rewrite mkdirStep_exists by assumption.
      destruct (IH fs (Js.push results
                  ("mkdir: cannot create directory '" ++ arg ++
                   "': File exists")))
        as (fs' & created & msgs & Hrun & Hfold).
      exists fs', created. eexists. split.
      * apply Spec.run_exists; eassumption.
      * rewrite Hfold. unfold Js.push. now rewrite <- app_assoc.
    + assert (Hcases :
                (itemDir (resolvePath cwd arg) = "/" \/
                 fileSystemItemExists fs (itemDir (resolvePath cwd arg)) = true)
                \/ (itemDir (resolvePath cwd arg) <> "/" /\
                    fileSystemItemExists fs (itemDir (resolvePath cwd arg))
                    = false)).
      { destruct (String.eqb_spec (itemDir (resolvePath cwd arg)) "/");
          [tauto|].
        destruct (fileSystemItemExists fs (itemDir (resolvePath cwd arg)));
          tauto. }
      destruct Hcases as [Hpar|[Hroot Hpar]].
      * rewrite mkdirStep_create by assumption.
        destruct (IH (map_set (resolvePath cwd arg)
                        (mkItem (resolvePath cwd arg) (baseName arg)
                                directory None "drwxr-xr-x" "4096") fs)
                     results)
          as (fs' & created & msgs & Hrun & Hfold).
        exists fs'. eexists. exists msgs. split; [|exact Hfold].
        apply Spec.run_create; [assumption | assumption | exact Hrun].
      * rewrite mkdirStep_no_parent by assumption.
        destruct (IH fs (Js.push results
                    ("mkdir: cannot create directory '" ++ arg ++
                     "': No such file or directory")))
          as (fs' & created & msgs & Hrun & Hfold).
        exists fs', created. eexists. split.
        -- apply Spec.run_no_parent; eassumption.
        -- rewrite Hfold. unfold Js.push. now rewrite <- app_assoc.
Qed.

Lemma MkdirRun_keeps (cwd : string) (fs fs' : FsMap) (args : list string)
      (created : list FileSystemItem) (msgs : list string) :
  Spec.MkdirRun cwd fs args fs' created msgs ->
  forall p node, map_get p fs = Some node -> map_get p fs' = Some node.
Proof.
  induction 1 as [fs | fs arg args fs' created msgs Hex _ IH
                     | fs arg args fs' created msgs Hex Hroot Hpar _ IH
                     | fs arg args fs' created msgs Hex Hpar node _ IH];
    intros p n Hp; auto.
  apply IH. rewrite map_get_set_other; [exact Hp|].
  intros E. subst p. unfold fileSystemItemExists in Hex.
  apply map_has_false in Hex. congruence.
Qed.

Lemma MkdirRun_created (cwd : string) (fs fs' : FsMap) (args : list string)
      (created : list FileSystemItem) (msgs : list string) :
  Spec.MkdirRun cwd fs args fs' created msgs ->
  forall node,
    In node created ->
    map_get (path node) fs' = Some node /\
    map_get (path node) fs = None /\
    type node = directory /\ content node = None /\
    permissions node = "drwxr-xr-x" /\ size node = "4096".
Proof.
  induction 1 as [fs | fs arg args fs' created msgs Hex Hrun IH
                     | fs arg args fs' created msgs Hex Hroot Hpar Hrun IH
                     | fs arg args fs' created msgs Hex Hpar node Hrun IH];
    intros n Hin; auto.
  - destruct Hin.
  - destruct Hin as [<-|Hin].
    + subst node. simpl. repeat split.
      * eapply MkdirRun_keeps; [exact Hrun|]. apply map_get_set_same.
      * now apply map_has_false.
    + destruct (IH n Hin) as (H1 & H2 & H3). repeat split; try tauto.
      destruct (String.eqb_spec (resolvePath cwd arg) (path n)) as [E|E].
      * rewrite <- E in H2. now rewrite map_get_set_same in H2.
      * now rewrite map_get_set_other in H2.
Qed.

(** C4, as stated, fails: once the root node has been removed ([rm /]),
    [mkdir /x] finds the path free and its parent ['/'] absent, and yet
    creates the directory and succeeds. *)
Lemma mkdir_parent_rule_counterexample :
  ~ Spec.mkdirParentRule (runAll Spec.sampleHost ["rm /"] initialState) "/x".
Proof.
  intros H. specialize (H eq_refl eq_refl). vm_compute in H. discriminate.
Qed.

(** C4, amended.  With no argument [mkdir] fails with "missing operand".
    Otherwise it goes through its arguments one after the other, each on
    the store the earlier ones left: a path where a node is stored gives
    the message "File exists"; a free path whose parent path is not ['/']
    and is not stored gives "No such file or directory"; any other path
    (so also one right under ['/'], whether or not the root node is
    stored) gets a directory node with permissions ['drwxr-xr-x'] and size
    ["4096"].  Nothing is rolled back: the nodes created are in the final
    store and the nodes stored before are as they were.  The output is the
    messages joined by line breaks, the error is the first message, and
    the result succeeds exactly when there is no message. *)
Theorem mkdir_partial_failure (args : list string) (st : State) :
  match args with
  | [] =>
      makeDirectory args st
      = (st, Return (mkResult "mkdir: missing operand"
                              (Some "Missing operand")
                              (currentDirectory st) false))
  | _ :: _ =>
      exists fs' created msgs,
        Spec.MkdirRun (currentDirectory st) (fileSystem st) args
                      fs' created msgs /\
        makeDirectory args st
        = (withFileSystem st fs',
           Return (mkResult (Js.join Js.nl msgs) (hd_error msgs)
                            (currentDirectory st)
                            (match msgs with [] => true | _ :: _ => false end)))
        /\
        (forall node,
            In node created ->
            getFileSystemItem fs' (path node) = Some node /\
            type node = directory /\
            permissions node = "drwxr-xr-x" /\ size node = "4096") /\
        (forall p node,
            getFileSystemItem (fileSystem st) p = Some node ->
            getFileSystemItem fs' p = Some node)
  end.
Proof.
  destruct args as [|arg args]; [reflexivity|].
  destruct (mkdirStep_run (currentDirectory st) (arg :: args)
                          (fileSystem st) [])
    as (fs' & created & msgs & Hrun & Hfold).
  exists fs', created, msgs. split; [exact Hrun|]. split.
  - unfold makeDirectory.
    change (List.length (arg :: args) =? 0)%nat with false. cbv iota.
    rewrite Hfold. simpl app. unfold aggregate. simpl currentDirectory.
    now destruct msgs.
  - split.
    + intros node Hin.
      destruct (MkdirRun_created Hrun node Hin) as (H1 & _ & H3 & _ & H5 & H6).
      auto.
    + intros p node Hp. eapply MkdirRun_keeps; eassumption.
Qed.

Lemma mkdir_partial_failure_witness :
  exists fs' created msgs,
    Spec.MkdirRun "/home/user" (fileSystem initialState)
                  ["a"; "a"; "x/y"] fs' created msgs /\
    snd (makeDirectory ["a"; "a"; "x/y"] initialState)
    = Return (mkResult (Js.join Js.nl msgs) (hd_error msgs) "/home/user"
                       (match msgs with [] => true | _ :: _ => false end)).
Proof.
  destruct (mkdir_partial_failure ["a"; "a"; "x/y"] initialState)
    as (fs' & created & msgs & Hrun & Hres & _).
  exists fs', created, msgs. split; [exact Hrun|].
  rewrite Hres. reflexivity.
Defined.

(** ** Directory paths *)

Lemma normalizedPath_plain (p : string) :
  Js.endsWith p "/" = false \/ p = "/" -> normalizedPath p = p.
Proof.
  unfold normalizedPath. intros [->| ->]; reflexivity.
Qed.

(** ** The parent invariant *)

(** C1 at a failing input.  The bootstrap store satisfies the invariant
    of the data model.  [touch nodir/f.txt] succeeds and stores a file
    whose parent ['/home/user/nodir'] is not stored, which breaks the
    invariant; so does [echo hi > nodir/g.txt].  [mkdir] checks the
    parent and refuses the same kind of path. *)
Theorem touch_stores_node_without_parent (host : Host) :
  Spec.parentsStored (fileSystem initialState) = true /\
  (let r := executeCommand host "touch nodir/f.txt" initialState in
   success (snd r) = true /\
   fileSystemItemExists (fileSystem (fst r)) "/home/user/nodir/f.txt" = true /\
   fileSystemItemExists (fileSystem (fst r)) "/home/user/nodir" = false /\
   Spec.parentsStored (fileSystem (fst r)) = false) /\
  (let r := executeCommand host "echo hi > nodir/g.txt" initialState in
   success (snd r) = true /\
   fileSystemItemExists (fileSystem (fst r)) "/home/user/nodir/g.txt" = true /\
   Spec.parentsStored (fileSystem (fst r)) = false) /\
  (let r := executeCommand host "mkdir nodir/d" initialState in
   snd r
   = mkResult
       "mkdir: cannot create directory 'nodir/d': No such file or directory"
       (Some "mkdir: cannot create directory 'nodir/d': No such file or directory")
       "/home/user" false /\
   fileSystem (fst r) = fileSystem initialState).
Proof.
  cbv zeta. repeat split; vm_compute; reflexivity.
Qed.

(** ** find *)

(** C9 at a failing input.  In [/home], [find user] queries the store
    with the bare argument ['user'] and prints nothing, while [ls user]
    resolves it and lists ['/home/user'], whose entries [find] shows only
    for the absolute path. *)
Theorem find_queries_unresolved_path (host : Host) :
  let st := runAll host ["cd /home"] initialState in
  currentDirectory st = "/home" /\
  snd (executeCommand host "find user" st) = mkResult "" None "/home" true /\
  snd (executeCommand host "ls user" st)
  = mkResult "Documents  Projects" None "/home" true /\
  snd (executeCommand host "find /home/user" st)
  = mkResult
      (Js.join Js.nl
         [ "/home/user/Documents"; "/home/user/Projects";
           "/home/user/.bashrc"; "/home/user/.profile";
           "/home/user/.bash_logout" ])
      None "/home" true /\
  (forall args st',
      nth_error args 0 = Some "user" ->
      Js.member "-name" args = false ->
      findFiles args st'
      = Return (mkResult
                  (Js.join Js.nl
                     (map path (getDirectoryContents (fileSystem st') "user")))
                  None (currentDirectory st') true)).
Proof.
  cbv zeta. repeat split; try (vm_compute; reflexivity).
  intros args st' Hargs Hname. unfold findFiles. cbv zeta.
  rewrite Hargs, Hname. simpl Js.or_else.
  change ("*" =? "*") with true. simpl orb.
  unfold ok. repeat f_equal.
  induction (getDirectoryContents (fileSystem st') "user") as [|x l IH];
    simpl; congruence.
Qed.

Lemma find_queries_unresolved_path_witness :
  nth_error ["user"] 0 = Some "user" /\
  Js.member "-name" ["user"] = false /\
  findFiles ["user"] initialState
  = Return (mkResult "" None "/home/user" true).
Proof.
  split; [reflexivity|]. split; [reflexivity|].
  exact (proj2 (proj2 (proj2 (proj2
    (find_queries_unresolved_path Spec.sampleHost))))
    ["user"] initialState eq_refl eq_refl).
Defined.

(** * Further properties of the store and of the handlers *)

(** ** The store as a map *)

Lemma map_set_absent (k : string) (v : FileSystemItem) (m : FsMap) :
  map_get k m = None -> map_set k v m = (m ++ [(k, v)])%list.
Proof.
  induction m as [|[k' v'] m IH]; simpl; [reflexivity|].
  destruct (String.eqb_spec k' k); [discriminate|].
  intros H. now rewrite IH.
Qed.

Lemma map_delete_absent (k : string) (m : FsMap) :
  map_get k m = None -> map_delete k m = m.
Proof.
  unfold map_delete. induction m as [|[k' v'] m IH]; simpl; [reflexivity|].
  destruct (String.eqb_spec k' k); [discriminate|].
  intros H. simpl. now rewrite IH.
Qed.

Lemma map_delete_set_absent (k : string) (v : FileSystemItem) (m : FsMap) :
  map_get k m = None -> map_delete k (map_set k v m) = m.
Proof.
  intros H. rewrite map_set_absent by assumption.
  unfold map_delete. rewrite filter_app. simpl.
  rewrite String.eqb_refl. simpl. rewrite app_nil_r.
  now apply map_delete_absent.
Qed.

Lemma map_set_length (k : string) (v : FileSystemItem) (m : FsMap) :
  List.length (map_set k v m)
  = if map_has k m then List.length m else S (List.length m).
Proof.
  unfold map_has. induction m as [|[k' v'] m IH]; simpl; [reflexivity|].
  destruct (String.eqb_spec k' k); simpl; [reflexivity|].
  rewrite IH. now destruct (map_get k m).
Qed.

(** X1. Storing an item and looking its path up gives the item back, and
    the path then exists; every other path reads as before.  An occupied
    path is overwritten in place (the number of nodes stays), a free one
    adds one node. *)
Theorem create_then_lookup (m : FsMap) (item : FileSystemItem) :
  getFileSystemItem (createFileSystemItem m item) (path item) = Some item /\
  fileSystemItemExists (createFileSystemItem m item) (path item) = true /\
  (forall p, p <> path item ->
             getFileSystemItem (createFileSystemItem m item) p
             = getFileSystemItem m p) /\
  List.length (createFileSystemItem m item)
  = if fileSystemItemExists m (path item) then List.length m
    else S (List.length m).
Proof.
  unfold getFileSystemItem, createFileSystemItem, fileSystemItemExists.
  split; [apply map_get_set_same|].
  split; [unfold map_has; now rewrite map_get_set_same|].
  split; [intros p Hp; apply map_get_set_other; congruence|].
  apply map_set_length.
Qed.

(** X2. Deleting a path reports whether a node was stored there; the
    path is absent afterwards and every other path reads as before (so
    the children of a deleted directory stay).  Deleting an absent path
    leaves the store as it is. *)
Theorem delete_contract (m : FsMap) (p : string) :
  fst (deleteFileSystemItem m p) = fileSystemItemExists m p /\
  getFileSystemItem (snd (deleteFileSystemItem m p)) p = None /\
  (forall p', p' <> p ->
              getFileSystemItem (snd (deleteFileSystemItem m p)) p'
              = getFileSystemItem m p') /\
  (fileSystemItemExists m p = false -> snd (deleteFileSystemItem m p) = m).
Proof.
  unfold deleteFileSystemItem, getFileSystemItem, fileSystemItemExists.
  simpl. split; [reflexivity|].
  split; [apply map_get_delete_same|].
  split; [intros p' Hp; apply map_get_delete_other; congruence|].
  intros H. apply map_delete_absent. now apply map_has_false.
Qed.

Lemma delete_contract_witness :
  fileSystemItemExists initializeFileSystem "/nowhere" = false /\
  snd (deleteFileSystemItem initializeFileSystem "/nowhere")
  = initializeFileSystem.
Proof.
  split; [reflexivity|].
  exact (proj2 (proj2 (proj2 (delete_contract initializeFileSystem "/nowhere")))
               eq_refl).
Defined.

(** ** Invariants kept by every command *)

Section Preservation.

(** [P] is a property of the store kept by the three mutators, provided
    the paths created satisfy [Q]; [Q] is kept by path resolution. *)
Variables (P : FsMap -> Prop) (Q : string -> Prop).

Hypothesis Q_resolve : forall cwd x, Q cwd -> Q (resolvePath cwd x).
Hypothesis Q_child : forall p n, Q p -> Q (p ++ "/" ++ n).
Hypothesis P_create :
  forall m item, P m -> Q (path item) -> P (createFileSystemItem m item).
Hypothesis P_delete : forall m k, P m -> P (map_delete k m).
Hypothesis P_update : forall m p perm, P m -> P (updatePermissions m p perm).

Definition invariant (st : State) : Prop :=
  P (fileSystem st) /\ Q (currentDirectory st).

Lemma mkdirStep_keeps cwd args :
  Q cwd ->
  forall acc, P (fst acc) -> P (fst (fold_left (mkdirStep cwd) args acc)).
Proof.
  intros HQ. induction args as [|arg args IH]; intros [fs results] HP;
    [exact HP|].
  simpl fold_left. apply IH. unfold mkdirStep.
  destruct (fileSystemItemExists fs (resolvePath cwd arg)); [exact HP|].
  cbv zeta. destruct (_ && _); [exact HP|].
  simpl fst. apply P_create; [exact HP | simpl; auto].
Qed.

Lemma touchStep_keeps cwd args :
  Q cwd -> forall fs, P fs -> P (fold_left (touchStep cwd) args fs).
Proof.
  intros HQ. induction args as [|arg args IH]; intros fs HP; [exact HP|].
  simpl fold_left. apply IH. unfold touchStep.
  destruct (fileSystemItemExists fs (resolvePath cwd arg)); [exact HP|].
  apply P_create; [exact HP | simpl; auto].
Qed.

Lemma rmStep_keeps cwd args :
  forall acc, P (fst acc) -> P (fst (fold_left (rmStep cwd) args acc)).
Proof.
  induction args as [|arg args IH]; intros [fs results] HP; [exact HP|].
  simpl fold_left. apply IH. unfold rmStep.
  destruct (negb (fileSystemItemExists fs (resolvePath cwd arg)));
    [exact HP|].
  unfold deleteFileSystemItem.
  destruct (negb (map_has (resolvePath cwd arg) fs)); simpl; auto.
Qed.

Lemma gitFiles_keep repoPath (fs0 : list (string * string)) :
  Q repoPath ->
  forall fs,
    P fs ->
    P (fold_left
         (fun fs f =>
            createFileSystemItem fs
              (mkItem (repoPath ++ "/" ++ fst f) (fst f) file (Some (snd f))
                      "-rw-r--r--" (Js.toString (String.length (snd f)))))
         fs0 fs).
Proof.
  intros HQ. induction fs0 as [|f fs0 IH]; intros fs HP; [exact HP|].
  simpl fold_left. apply IH.
  apply P_create; [exact HP | unfold mkItem; cbn [path]; now apply Q_child].
Qed.

(** The state after a handler satisfies the invariant. *)
Ltac keeps_cases H :=
  repeat first
    [ exact H
    | match goal with
      | |- invariant (fst (?s, _)) =>
          change (invariant s);
          split;
          [ cbn [fileSystem withFileSystem withCurrentDirectory]
          | cbn [currentDirectory withFileSystem withCurrentDirectory];
            solve [apply H | apply Q_resolve; apply H] ]
      | |- invariant (fst (match ?x with _ => _ end)) => destruct x
      | |- invariant (fst (if ?b then _ else _)) => destruct b
      | |- invariant (fst (let (_, _) := ?x in _)) => destruct x
      end ].

Lemma changeDirectory_keeps p st :
  invariant st -> invariant (fst (changeDirectory p st)).
Proof.
  intros H. unfold changeDirectory. cbv zeta. keeps_cases H. apply H.
Qed.

Lemma makeDirectory_keeps args st :
  invariant st -> invariant (fst (makeDirectory args st)).
Proof.
  intros H. unfold makeDirectory.
  destruct (List.length args =? 0)%nat; [exact H|].
  pose proof (@mkdirStep_keeps (currentDirectory st) args (proj2 H)
                (fileSystem st, []) (proj1 H)) as HP.
  destruct (fold_left _ args _) as [fs results].
  split; [exact HP | apply H].
Qed.

Lemma createFile_keeps args st :
  invariant st -> invariant (fst (createFile args st)).
Proof.
  intros H. unfold createFile.
  destruct (List.length args =? 0)%nat; [exact H|].
  split; [|apply H]. simpl. apply touchStep_keeps; apply H.
Qed.

Lemma removeFile_keeps args st :
  invariant st -> invariant (fst (removeFile args st)).
Proof.
  intros H. unfold removeFile.
  destruct (List.length args =? 0)%nat; [exact H|].
  pose proof (@rmStep_keeps (currentDirectory st) args
                (fileSystem st, []) (proj1 H)) as HP.
  destruct (fold_left _ args _) as [fs results].
  split; [exact HP | apply H].
Qed.

Lemma echo_keeps args st : invariant st -> invariant (fst (echo args st)).
Proof.
  intros H. unfold echo. cbv zeta. keeps_cases H.
  apply P_create; [apply H | simpl; apply Q_resolve; apply H].
Qed.

Lemma executeWget_keeps host args st :
  invariant st -> invariant (fst (executeWget host args st)).
Proof.
  intros H. unfold executeWget. cbv zeta. keeps_cases H.
  apply P_create; [apply H | simpl; apply Q_resolve; apply H].
Qed.

Lemma executeGit_keeps args st :
  invariant st -> invariant (fst (executeGit args st)).
Proof.
  intros H. unfold executeGit. cbv zeta. keeps_cases H.
  apply gitFiles_keep; [apply Q_resolve; apply H|].
  apply P_create; [apply H | simpl; apply Q_resolve; apply H].
Qed.

Lemma executeJavac_keeps args st :
  invariant st -> invariant (fst (executeJavac args st)).
Proof.
  intros H. unfold executeJavac. cbv zeta. keeps_cases H.
  apply P_create; [apply H | simpl; apply Q_resolve; apply H].
Qed.

Lemma executeGcc_keeps c args st :
  invariant st -> invariant (fst (executeGcc c args st)).
Proof.
  intros H. unfold executeGcc. cbv zeta. keeps_cases H.
  apply P_create; [apply H | simpl; apply Q_resolve; apply H].
Qed.

Lemma copyFile_keeps args st :
  invariant st -> invariant (fst (copyFile args st)).
Proof.
  intros H. unfold copyFile. cbv zeta. keeps_cases H.
  apply P_create; [apply H | simpl; apply Q_resolve; apply H].
Qed.

Lemma moveFile_keeps args st :
  invariant st -> invariant (fst (moveFile args st)).
Proof.
  intros H. unfold moveFile. cbv zeta. keeps_cases H.
  apply P_delete.
  apply P_create; [apply H | simpl; apply Q_resolve; apply H].
Qed.

Lemma changePermissions_keeps args st :
  invariant st -> invariant (fst (changePermissions args st)).
Proof.
  intros H. unfold changePermissions. cbv zeta. keeps_cases H.
  apply P_update. apply H.
Qed.

Lemma dispatch_keeps host cmd args st :
  invariant st -> invariant (fst (dispatch host cmd args st)).
Proof.
  intros H. unfold dispatch.
  repeat match goal with
         | |- invariant (fst (if ?b then _ else _)) =>
             destruct b;
             [solve [ exact H
                    | now apply changeDirectory_keeps
                    | now apply makeDirectory_keeps
                    | now apply createFile_keeps
                    | now apply echo_keeps
                    | now apply removeFile_keeps
                    | now apply executeWget_keeps
                    | now apply executeGit_keeps
                    | now apply executeJavac_keeps
                    | now apply executeGcc_keeps
                    | now apply copyFile_keeps
                    | now apply moveFile_keeps
                    | now apply changePermissions_keeps ]|]
         end.
  exact H.
Qed.

Lemma executeCommand_keeps host command st :
  invariant st -> invariant (fst (executeCommand host command st)).
Proof.
  intros H. unfold executeCommand. cbv zeta.
  destruct (Js.trim command =? ""); [exact H|].
  match goal with
  | |- context [dispatch ?h ?c ?a ?s] =>
      assert (Hd : invariant (fst (dispatch h c a s)))
        by (apply dispatch_keeps; exact H);
      destruct (dispatch h c a s) as [st' [r|e]]
  end; exact Hd.
Qed.

Lemma runAll_keeps host commands :
  forall st, invariant st -> invariant (runAll host commands st).
Proof.
  unfold runAll.
  induction commands as [|c cs IH]; intros st H; [exact H|].
  simpl. apply IH. now apply executeCommand_keeps.
Qed.

End Preservation.

(** ** One node per path *)

Lemma map_get_In (k : string) (v : FileSystemItem) (m : FsMap) :
  map_get k m = Some v -> In (k, v) m.
Proof.
  induction m as [|[k' v'] m IH]; simpl; [discriminate|].
  destruct (String.eqb_spec k' k) as [->|Hne].
  - intros [= ->]. now left.
  - intros H. right. now apply IH.
Qed.

Lemma map_set_Forall (R : string * FileSystemItem -> Prop) (k : string)
      (v : FileSystemItem) (m : FsMap) :
  Forall R m -> R (k, v) -> Forall R (map_set k v m).
Proof.
  intros Hm Hkv. induction Hm as [|[k' v'] m Hx Hm IH]; simpl.
  - now constructor.
  - destruct (k' =? k); constructor; assumption.
Qed.

Lemma map_delete_Forall (R : string * FileSystemItem -> Prop) (k : string)
      (m : FsMap) :
  Forall R m -> Forall R (map_delete k m).
Proof.
  unfold map_delete. intros Hm. induction Hm as [|x m Hx Hm IH]; simpl.
  - constructor.
  - destruct (negb (fst x =? k)); [constructor|]; assumption.
Qed.

Lemma map_set_keys_in (x k : string) (v : FileSystemItem) (m : FsMap) :
  In x (map fst (map_set k v m)) -> x = k \/ In x (map fst m).
Proof.
  induction m as [|[k' v'] m IH]; simpl.
  - intros [<-|[]]. now left.
  - destruct (String.eqb_spec k' k) as [->|Hne]; simpl.
    + intros [<-|H]; [now left | now right; right].
    + intros [<-|H]; [now right; left|].
      destruct (IH H); [now left | now right; right].
Qed.

Lemma map_set_NoDup (k : string) (v : FileSystemItem) (m : FsMap) :
  NoDup (map fst m) -> NoDup (map fst (map_set k v m)).
Proof.
  induction m as [|[k' v'] m IH]; simpl; intros Hm.
  - constructor; [intros [] | constructor].
  - inversion Hm as [|? ? Hnin Hm']; subst.
    destruct (String.eqb_spec k' k) as [->|Hne]; simpl.
    + now constructor.
    + constructor; [|now apply IH].
      intros Hin. destruct (map_set_keys_in _ _ _ _ Hin); congruence.
Qed.

Lemma map_delete_keys_in (x k : string) (m : FsMap) :
  In x (map fst (map_delete k m)) -> In x (map fst m).
Proof.
  unfold map_delete. induction m as [|[k' v'] m IH]; simpl; [tauto|].
  destruct (negb (k' =? k)); simpl; tauto.
Qed.

Lemma map_delete_NoDup (k : string) (m : FsMap) :
  NoDup (map fst m) -> NoDup (map fst (map_delete k m)).
Proof.
  induction m as [|[k' v'] m IH]; simpl; intros Hm; [constructor|].
  inversion Hm as [|? ? Hnin Hm']; subst. unfold map_delete. simpl.
  destruct (negb (k' =? k)); simpl; [|now apply IH].
  constructor; [|now apply IH].
  intros Hin. apply Hnin. eapply map_delete_keys_in. exact Hin.
Qed.

Lemma wellKeyed_create m item :
  Inv.wellKeyed m -> Inv.wellKeyed (createFileSystemItem m item).
Proof.
  intros [Hk Hp]. split.
  - now apply map_set_NoDup.
  - now apply map_set_Forall.
Qed.

Lemma wellKeyed_delete m k : Inv.wellKeyed m -> Inv.wellKeyed (map_delete k m).
Proof.
  intros [Hk Hp]. split.
  - now apply map_delete_NoDup.
  - now apply map_delete_Forall.
Qed.

Lemma wellKeyed_update m p perm :
  Inv.wellKeyed m -> Inv.wellKeyed (updatePermissions m p perm).
Proof.
  intros [Hk Hp]. unfold updatePermissions.
  destruct (map_get p m) as [item|] eqn:Hget; [|now split].
  split.
  - now apply map_set_NoDup.
  - apply map_set_Forall; [assumption|]. simpl.
    apply map_get_In in Hget.
    rewrite Forall_forall in Hp. exact (Hp _ Hget).
Qed.

Lemma wellKeyed_initial : Inv.wellKeyed initializeFileSystem.
Proof.
  split.
  - change (map fst initializeFileSystem)
      with ["/"; "/home"; "/home/user"; "/home/user/Documents";
            "/home/user/Projects"; "/home/user/.bashrc";
            "/home/user/.profile"; "/home/user/.bash_logout"].
    repeat (constructor; [simpl; intuition discriminate|]). constructor.
  - unfold initializeFileSystem. simpl. repeat constructor.
Qed.

(** X3. No two nodes ever share a path: in every state reached from the
    bootstrap state by any sequence of command lines, the store holds at
    most one node per path, and each node is stored under the path it
    carries.  Every single command keeps this. *)
Theorem paths_stay_unique (host : Host) (commands : list string) :
  Inv.wellKeyed (fileSystem (runAll host commands initialState)) /\
  (forall st command,
      Inv.wellKeyed (fileSystem st) ->
      Inv.wellKeyed (fileSystem (fst (executeCommand host command st)))).
Proof.
  split.
  - apply (@runAll_keeps Inv.wellKeyed (fun _ => True)); auto.
    + intros; now apply wellKeyed_create.
    + intros; now apply wellKeyed_delete.
    + intros; now apply wellKeyed_update.
    + split; [exact wellKeyed_initial | exact I].
  - intros st command H.
    apply (@executeCommand_keeps Inv.wellKeyed (fun _ => True)); auto.
    + intros; now apply wellKeyed_create.
    + intros; now apply wellKeyed_delete.
    + intros; now apply wellKeyed_update.
    + split; [exact H | exact I].
Qed.

Lemma paths_stay_unique_witness :
  Inv.wellKeyed (fileSystem initialState) /\
  Inv.wellKeyed
    (fileSystem (fst (executeCommand Spec.sampleHost "touch a a" initialState))).
Proof.
  split; [exact wellKeyed_initial|].
  exact (proj2 (paths_stay_unique Spec.sampleHost [])
               initialState "touch a a" wellKeyed_initial).
Defined.

(** ** Absolute paths *)

Lemma absolute_app (p s : string) : Inv.absolute p -> Inv.absolute (p ++ s).
Proof.
  unfold Inv.absolute. destruct p as [|a p]; [discriminate|].
  simpl append. now rewrite !startsWith_char.
Qed.

Lemma absolute_resolvePath (cwd x : string) :
  Inv.absolute cwd -> Inv.absolute (resolvePath cwd x).
Proof.
  intros H. unfold resolvePath.
  destruct (Js.startsWith x "/") eqn:Hx; [exact Hx|].
  destruct (x =? "~"); [reflexivity|].
  destruct (Js.startsWith x "~/");
    [unfold Inv.absolute; simpl append; now rewrite startsWith_char|].
  destruct (cwd =? "/");
    [unfold Inv.absolute; simpl append; now rewrite startsWith_char|].
  now apply absolute_app.
Qed.

(** X4. Path resolution always yields an absolute path when the current
    directory is absolute, and resolving a resolved path changes
    nothing. *)
Theorem resolvePath_absolute_idempotent (cwd x : string) :
  Inv.absolute cwd ->
  Inv.absolute (resolvePath cwd x) /\
  resolvePath cwd (resolvePath cwd x) = resolvePath cwd x.
Proof.
  intros H. pose proof (absolute_resolvePath x H) as Ha.
  split; [exact Ha|]. unfold Inv.absolute in Ha.
  unfold resolvePath at 1. now rewrite Ha.
Qed.

Lemma resolvePath_absolute_idempotent_witness :
  Inv.absolute "/home/user" /\
  resolvePath "/home/user" (resolvePath "/home/user" "~/notes/../a.txt")
  = "/home/user/notes/../a.txt".
Proof.
  split; [reflexivity|].
  exact (proj2 (@resolvePath_absolute_idempotent
                  "/home/user" "~/notes/../a.txt" eq_refl)).
Defined.

Lemma allAbsolute_update m p perm :
  Inv.allAbsolute m -> Inv.allAbsolute (updatePermissions m p perm).
Proof.
  intros Hm. unfold updatePermissions.
  destruct (map_get p m) as [item|] eqn:Hget; [|assumption].
  apply map_set_Forall; [assumption|]. simpl.
  apply map_get_In in Hget. unfold Inv.allAbsolute in Hm.
  rewrite Forall_forall in Hm. exact (Hm _ Hget).
Qed.

(** X5. In every state reached from the bootstrap state by any sequence
    of command lines, the current directory is an absolute path and so is
    the path of every stored node; every single command keeps this. *)
Theorem paths_stay_absolute (host : Host) (commands : list string) :
  (let st := runAll host commands initialState in
   Inv.absolute (currentDirectory st) /\ Inv.allAbsolute (fileSystem st)) /\
  (forall st command,
      Inv.absolute (currentDirectory st) ->
      Inv.allAbsolute (fileSystem st) ->
      let st' := fst (executeCommand host command st) in
      Inv.absolute (currentDirectory st') /\ Inv.allAbsolute (fileSystem st')).
Proof.
  assert (Hc : forall m item,
             Inv.allAbsolute m -> Inv.absolute (path item) ->
             Inv.allAbsolute (createFileSystemItem m item))
    by (intros; now apply map_set_Forall).
  assert (Hd : forall m k, Inv.allAbsolute m -> Inv.allAbsolute (map_delete k m))
    by (intros; now apply map_delete_Forall).
  assert (Hch : forall p n, Inv.absolute p -> Inv.absolute (p ++ "/" ++ n))
    by (intros; now apply absolute_app).
  split.
  - cbv zeta. apply and_comm.
    apply (@runAll_keeps Inv.allAbsolute Inv.absolute
             absolute_resolvePath Hch Hc Hd allAbsolute_update).
    split; [|reflexivity].
    unfold initialState, initializeFileSystem. simpl. repeat constructor.
  - intros st command H1 H2. cbv zeta. apply and_comm.
    apply (@executeCommand_keeps Inv.allAbsolute Inv.absolute
             absolute_resolvePath Hch Hc Hd allAbsolute_update).
    split; assumption.
Qed.

Lemma paths_stay_absolute_witness :
  Inv.absolute (currentDirectory initialState) /\
  Inv.allAbsolute (fileSystem initialState) /\
  Inv.absolute
    (currentDirectory
       (fst (executeCommand Spec.sampleHost "cd Documents" initialState))).
Proof.
  assert (H : Inv.allAbsolute (fileSystem initialState))
    by (unfold initialState, initializeFileSystem; simpl; repeat constructor).
  split; [reflexivity|]. split; [exact H|].
  exact (proj1 (proj2 (paths_stay_absolute Spec.sampleHost [])
                      initialState "cd Documents" eq_refl H)).
Defined.

(** ** What commands leave alone *)

Ltac cwd_cases :=
  repeat first
    [ reflexivity
    | match goal with
      | |- currentDirectory (fst (match ?x with _ => _ end)) = _ => destruct x
      end ].

Lemma makeDirectory_cwd args st :
  currentDirectory (fst (makeDirectory args st)) = currentDirectory st.
Proof. unfold makeDirectory. cbv zeta. cwd_cases. Qed.

Lemma createFile_cwd args st :
  currentDirectory (fst (createFile args st)) = currentDirectory st.
Proof. unfold createFile. cbv zeta. cwd_cases. Qed.

Lemma echo_cwd args st :
  currentDirectory (fst (echo args st)) = currentDirectory st.
Proof. unfold echo. cbv zeta. cwd_cases. Qed.

Lemma removeFile_cwd args st :
  currentDirectory (fst (removeFile args st)) = currentDirectory st.
Proof. unfold removeFile. cbv zeta. cwd_cases. Qed.

Lemma executeWget_cwd host args st :
  currentDirectory (fst (executeWget host args st)) = currentDirectory st.
Proof. unfold executeWget. cbv zeta. cwd_cases. Qed.

Lemma executeGit_cwd args st :
  currentDirectory (fst (executeGit args st)) = currentDirectory st.
Proof. unfold executeGit. cbv zeta. cwd_cases. Qed.

Lemma executeJavac_cwd args st :
  currentDirectory (fst (executeJavac args st)) = currentDirectory st.
Proof. unfold executeJavac. cbv zeta. cwd_cases. Qed.

Lemma executeGcc_cwd c args st :
  currentDirectory (fst (executeGcc c args st)) = currentDirectory st.
Proof. unfold executeGcc. cbv zeta. cwd_cases. Qed.

Lemma copyFile_cwd args st :
  currentDirectory (fst (copyFile args st)) = currentDirectory st.
Proof. unfold copyFile. cbv zeta. cwd_cases. Qed.

Lemma moveFile_cwd args st :
  currentDirectory (fst (moveFile args st)) = currentDirectory st.
Proof. unfold moveFile. cbv zeta. cwd_cases. Qed.

Lemma changePermissions_cwd args st :
  currentDirectory (fst (changePermissions args st)) = currentDirectory st.
Proof. unfold changePermissions. cbv zeta. cwd_cases. Qed.

Lemma dispatch_cwd host cmd args st :
  cmd <> "cd" ->
  currentDirectory (fst (dispatch host cmd args st)) = currentDirectory st.
Proof.
  intros Hcd. unfold dispatch.
  rewrite (proj2 (String.eqb_neq cmd "cd") Hcd). cbv iota.
  repeat match goal with
         | |- currentDirectory (fst (if ?b then _ else _)) = _ =>
             destruct b;
             [solve [ reflexivity
                    | apply makeDirectory_cwd | apply createFile_cwd
                    | apply echo_cwd | apply removeFile_cwd
                    | apply executeWget_cwd | apply executeGit_cwd
                    | apply executeJavac_cwd | apply executeGcc_cwd
                    | apply copyFile_cwd | apply moveFile_cwd
                    | apply changePermissions_cwd ]|]
         end.
  reflexivity.
Qed.

(** X6. Only [cd] moves the session: a command line whose command name is
    not [cd] leaves [currentDirectory] as it was, whether it succeeds,
    fails or throws. *)
Theorem only_cd_changes_directory (host : Host) (command : string)
        (st : State) :
  Inv.commandName command <> "cd" ->
  currentDirectory (fst (executeCommand host command st))
  = currentDirectory st.
Proof.
  intros Hcd. unfold executeCommand. cbv zeta.
  destruct (Js.trim command =? ""); [reflexivity|].
  match goal with
  | |- context [dispatch ?h ?c ?a ?s] =>
      pose proof (@dispatch_cwd h c a s Hcd) as Hd;
      destruct (dispatch h c a s) as [st' [r|e]]
  end; exact Hd.
Qed.

Lemma only_cd_changes_directory_witness :
  Inv.commandName "  rm   /home/user " <> "cd" /\
  currentDirectory
    (fst (executeCommand Spec.sampleHost "  rm   /home/user " initialState))
  = "/home/user".
Proof.
  assert (H : Inv.commandName "  rm   /home/user " <> "cd")
    by (vm_compute; discriminate).
  split; [exact H|].
  exact (@only_cd_changes_directory Spec.sampleHost "  rm   /home/user "
           initialState H).
Defined.

Lemma changeDirectory_store p st :
  fileSystem (fst (changeDirectory p st)) = fileSystem st.
Proof.
  unfold changeDirectory. cbv zeta.
  repeat match goal with
         | |- fileSystem (fst (if ?b then _ else _)) = _ => destruct b
         end; reflexivity.
Qed.

Lemma eqb_outside (cmd s : string) (names : list string) :
  ~ In cmd names -> In s names -> (cmd =? s) = false.
Proof.
  intros Hn Hs. apply String.eqb_neq. intros ->. contradiction.
Qed.

(** X7. The store is written by twelve commands only ([mkdir], [touch],
    [echo], [rm], [wget], [git], [javac], [gcc], [g++], [cp], [mv],
    [chmod]): a command line with any other command name, known or not,
    leaves the store exactly as it was. *)
Theorem readers_leave_store (host : Host) (command : string) (st : State) :
  ~ In (Inv.commandName command) Inv.storeWriters ->
  fileSystem (fst (executeCommand host command st)) = fileSystem st.
Proof.
  intros Hw. unfold executeCommand. cbv zeta.
  destruct (Js.trim command =? ""); [reflexivity|].
  fold (Inv.commandName command). fold (Inv.commandArgs command).
  assert (Hd : forall s,
             fileSystem
               (fst (dispatch host (Inv.commandName command)
                              (Inv.commandArgs command) s))
             = fileSystem s).
  { intros s. unfold dispatch.
    repeat match goal with
           | |- context [Inv.commandName command =? ?w] =>
               rewrite (@eqb_outside (Inv.commandName command) w
                          Inv.storeWriters Hw)
                 by (simpl; tauto)
           end.
    cbv beta iota delta [orb].
    repeat match goal with
           | |- fileSystem (fst (if ?b then _ else _)) = _ =>
               destruct b;
               [solve [reflexivity | apply changeDirectory_store]|]
           end.
    reflexivity. }
  specialize (Hd (pushHistory st (Js.trim command))).
  destruct (dispatch _ _ _ _) as [st' [r|e]]; exact Hd.
Qed.

Lemma readers_leave_store_witness :
  ~ In (Inv.commandName "find /home/user -name") Inv.storeWriters /\
  fileSystem
    (fst (executeCommand Spec.sampleHost "find /home/user -name" initialState))
  = initializeFileSystem.
Proof.
  assert (H : ~ In (Inv.commandName "find /home/user -name") Inv.storeWriters)
    by (vm_compute; intuition discriminate).
  split; [exact H|].
  exact (@readers_leave_store Spec.sampleHost "find /home/user -name"
           initialState H).
Defined.

(** X8. Dispatch is by exact name: a non-blank command line whose command
    name is not one of the forty-six names of the [switch] (a known name
    in upper case, say) is recorded in the history and answered with
    "command not found"; the store and the directory stay as they were. *)
Theorem unknown_command (host : Host) (command : string) (st : State) :
  Js.trim command <> "" ->
  ~ In (Inv.commandName command) Inv.knownCommands ->
  executeCommand host command st
  = (pushHistory st (Js.trim command),
     mkResult ("Command not found: " ++ Inv.commandName command)
              (Some (Inv.commandName command ++ ": command not found"))
              (currentDirectory st) false).
Proof.
  intros Hne Hk. unfold executeCommand. cbv zeta.
  destruct (String.eqb_spec (Js.trim command) ""); [congruence|].
  fold (Inv.commandName command). fold (Inv.commandArgs command).
  unfold dispatch.
  repeat match goal with
         | |- context [Inv.commandName command =? ?w] =>
             rewrite (@eqb_outside (Inv.commandName command) w
                        Inv.knownCommands Hk)
               by (simpl; tauto)
         end.
  reflexivity.
Qed.

Lemma unknown_command_witness :
  Js.trim " LS -la " <> "" /\
  ~ In (Inv.commandName " LS -la ") Inv.knownCommands /\
  snd (executeCommand Spec.sampleHost " LS -la " initialState)
  = mkResult "Command not found: LS" (Some "LS: command not found")
             "/home/user" false.
Proof.
  assert (H1 : Js.trim " LS -la " <> "") by (vm_compute; discriminate).
  assert (H2 : ~ In (Inv.commandName " LS -la ") Inv.knownCommands)
    by (vm_compute; intuition discriminate).
  split; [exact H1|]. split; [exact H2|].
  exact (f_equal snd
           (@unknown_command Spec.sampleHost " LS -la " initialState H1 H2)).
Defined.

(** ** Exceptions *)

Definition returns (p : State * Outcome) : Prop :=
  match snd p with
  | Return _ => True
  | Throw _ => False
  end.

Ltac returns_cases :=
  repeat first
    [ exact I
    | match goal with
      | |- returns (match ?x with _ => _ end) => destruct x
      end ].

Lemma changeDirectory_returns p st : returns (changeDirectory p st).
Proof. unfold changeDirectory. cbv zeta. returns_cases. Qed.

Lemma makeDirectory_returns args st : returns (makeDirectory args st).
Proof. unfold makeDirectory. cbv zeta. returns_cases. Qed.

Lemma createFile_returns args st : returns (createFile args st).
Proof. unfold createFile. cbv zeta. returns_cases. Qed.

Lemma removeFile_returns args st : returns (removeFile args st).
Proof. unfold removeFile. cbv zeta. returns_cases. Qed.

Lemma echo_returns args st : returns (echo args st).
Proof.
  unfold echo. cbv zeta.
  destruct (List.length args =? 0)%nat; [exact I|].
  destruct (Js.indexOf ">" args) as [i|]; [|exact I].
  destruct (i <? List.length args - 1)%nat eqn:Hlt; [|exact I].
  destruct (nth_error args (i + 1)) eqn:Hn; [exact I|].
  apply nth_error_None in Hn. apply Nat.ltb_lt in Hlt. lia.
Qed.

Lemma executeWget_returns host args st : returns (executeWget host args st).
Proof. unfold executeWget. cbv zeta. returns_cases. Qed.

Lemma executeGit_returns args st : returns (executeGit args st).
Proof. unfold executeGit. cbv zeta. returns_cases. Qed.

Lemma executeJavac_returns args st : returns (executeJavac args st).
Proof. unfold executeJavac. cbv zeta. returns_cases. Qed.

Lemma copyFile_returns args st : returns (copyFile args st).
Proof. unfold copyFile. cbv zeta. returns_cases. Qed.

Lemma moveFile_returns args st : returns (moveFile args st).
Proof. unfold moveFile. cbv zeta. returns_cases. Qed.

Lemma changePermissions_returns args st :
  returns (changePermissions args st).
Proof. unfold changePermissions. cbv zeta. returns_cases. Qed.

(** [find] throws: [-name] is the last argument, and the directory
    searched has entries. *)
Definition findThrows (cmd : string) (args : list string) (st : State)
  : Prop :=
  cmd = "find" /\
  Js.member "-name" args = true /\
  Js.afterIndexOf "-name" args = None /\
  getDirectoryContents (fileSystem st)
    (Js.or_else (nth_error args 0) (currentDirectory st)) <> [].

(** [gcc] or [g++] throws: [-o] is the last argument, and the source
    file, the first argument, is stored. *)
Definition gccThrows (cmd : string) (args : list string) (st : State)
  : Prop :=
  (cmd = "gcc" \/ cmd = "g++") /\
  Js.member "-o" args = true /\
  Js.afterIndexOf "-o" args = None /\
  exists sourceFile,
    nth_error args 0 = Some sourceFile /\
    fileSystemItemExists (fileSystem st)
                         (resolvePath (currentDirectory st) sourceFile)
    = true.

(** Where a thrown error may come from, for the command [cmd]. *)
Definition thrownBy (cmd : string) (args : list string) (st : State)
           (p : State * Outcome) : Prop :=
  forall e,
    snd p = Throw e ->
    fst p = st /\
    ((findThrows cmd args st /\ e = undefinedRead "replace") \/
     (gccThrows cmd args st /\ e = undefinedRead "startsWith")).

Lemma thrownBy_returns cmd args st p : returns p -> thrownBy cmd args st p.
Proof.
  unfold returns, thrownBy. intros H e He. rewrite He in H. destruct H.
Qed.

Lemma thrownBy_stay cmd args st r : thrownBy cmd args st (stay st r).
Proof. intros e He. discriminate. Qed.

Lemma thrownBy_find args st : thrownBy "find" args st (st, findFiles args st).
Proof.
  intros e. unfold findFiles. cbv zeta. cbn [fst snd].
  destruct (Js.member "-name" args) eqn:Hm; [|discriminate].
  destruct (Js.afterIndexOf "-name" args) eqn:Ha; [discriminate|].
  destruct (getDirectoryContents _ _) eqn:Hc; [discriminate|].
  intros [= <-]. split; [reflexivity|]. left.
  split; [|reflexivity]. unfold findThrows. rewrite Hc.
  repeat split; try assumption. discriminate.
Qed.

Lemma thrownBy_gcc cmd args st :
  cmd = "gcc" \/ cmd = "g++" -> thrownBy cmd args st (executeGcc cmd args st).
Proof.
  intros Hc e. unfold executeGcc. cbv zeta.
  destruct args as [|sourceFile rest]; [discriminate|].
  destruct (getFileSystemItem _ _) eqn:Hget; [|discriminate].
  destruct (Js.member "-o" (sourceFile :: rest)) eqn:Hm; [|discriminate].
  destruct (Js.afterIndexOf "-o" (sourceFile :: rest)) eqn:Ha; [discriminate|].
  simpl. intros [= <-]. split; [reflexivity|]. right.
  split; [|reflexivity]. repeat split; try assumption.
  exists sourceFile. split; [reflexivity|].
  unfold fileSystemItemExists, map_has, getFileSystemItem in *.
  now rewrite Hget.
Qed.

Lemma findThrows_throws host cmd args st :
  findThrows cmd args st ->
  dispatch host cmd args st = (st, Throw (undefinedRead "replace")).
Proof.
  intros (-> & Hm & Ha & Hc).
  change (dispatch host "find" args st) with (st, findFiles args st).
  unfold findFiles. cbv zeta. rewrite Hm, Ha.
  destruct (getDirectoryContents _ _); [congruence | reflexivity].
Qed.

Lemma gccThrows_throws host cmd args st :
  gccThrows cmd args st ->
  dispatch host cmd args st = (st, Throw (undefinedRead "startsWith")).
Proof.
  intros (Hcmd & Hm & Ha & sourceFile & Hsrc & Hex).
  assert (E : dispatch host cmd args st = executeGcc cmd args st)
    by (destruct Hcmd as [-> | ->]; reflexivity).
  rewrite E. unfold executeGcc.
  destruct args as [|a rest]; [discriminate|].
  simpl in Hsrc. injection Hsrc as ->. cbv zeta. rewrite Hm, Ha.
  unfold fileSystemItemExists, map_has, getFileSystemItem in *.
  destruct (map_get _ (fileSystem st)); [reflexivity | discriminate].
Qed.

(** X9. A handler throws in exactly two situations, both a read of a
    missing option value: [find] whose last argument is [-name], when the
    directory searched has entries, and [gcc]/[g++] whose last argument
    is [-o], when the source file is stored.  In each of the two the
    handler does throw (a [TypeError] on [replace], on [startsWith]) and
    leaves the state as it was given; in every other case, whatever the
    command, the handler returns a result of its own. *)
Theorem throws_only_on_missing_option_value (host : Host) (cmd : string)
        (args : list string) (st : State) :
  (forall e,
      snd (dispatch host cmd args st) = Throw e ->
      fst (dispatch host cmd args st) = st /\
      ((findThrows cmd args st /\ e = undefinedRead "replace") \/
       (gccThrows cmd args st /\ e = undefinedRead "startsWith"))) /\
  (findThrows cmd args st ->
   dispatch host cmd args st = (st, Throw (undefinedRead "replace"))) /\
  (gccThrows cmd args st ->
   dispatch host cmd args st = (st, Throw (undefinedRead "startsWith"))) /\
  ((exists e, snd (dispatch host cmd args st) = Throw e) <->
   findThrows cmd args st \/ gccThrows cmd args st).
Proof.
  assert (Hfwd : thrownBy cmd args st (dispatch host cmd args st)).
  { unfold dispatch.
    repeat match goal with
           | |- thrownBy _ _ _ (if ?b then _ else _) =>
               let E := fresh "E" in
               destruct b eqn:E;
               [solve [ apply thrownBy_stay
                      | apply thrownBy_returns;
                        first [ apply changeDirectory_returns
                              | apply makeDirectory_returns
                              | apply createFile_returns
                              | apply echo_returns
                              | apply removeFile_returns
                              | apply executeWget_returns
                              | apply executeGit_returns
                              | apply executeJavac_returns
                              | apply copyFile_returns
                              | apply moveFile_returns
                              | apply changePermissions_returns ]
                      | apply thrownBy_gcc; apply orb_true_iff in E;
                        destruct E as [E|E]; apply String.eqb_eq in E; auto
                      | apply String.eqb_eq in E; subst cmd;
                        apply thrownBy_find ]|]
           end.
    apply thrownBy_stay. }
  split; [exact Hfwd|].
  split; [apply findThrows_throws|]. split; [apply gccThrows_throws|].
  split.
  - intros [e He]. destruct (Hfwd e He) as [_ [[H _]|[H _]]]; auto.
  - intros [H|H]; eexists.
    + now rewrite (findThrows_throws host H).
    + now rewrite (gccThrows_throws host H).
Qed.

Lemma throws_only_on_missing_option_value_witness :
  let st := fst (createFile ["main.c"] initialState) in
  gccThrows "g++" ["main.c"; "-o"] st /\
  dispatch Spec.sampleHost "g++" ["main.c"; "-o"] st
  = (st, Throw (undefinedRead "startsWith")) /\
  findThrows "find" ["/home/user"; "-name"] initialState /\
  dispatch Spec.sampleHost "find" ["/home/user"; "-name"] initialState
  = (initialState, Throw (undefinedRead "replace")).
Proof.
  cbv zeta.
  assert (Hg : gccThrows "g++" ["main.c"; "-o"]
                         (fst (createFile ["main.c"] initialState))).
  { split; [now right|]. split; [reflexivity|]. split; [reflexivity|].
    exists "main.c". split; reflexivity. }
  assert (Hf : findThrows "find" ["/home/user"; "-name"] initialState).
  { split; [reflexivity|]. split; [reflexivity|]. split; [reflexivity|].
    vm_compute. discriminate. }
  split; [exact Hg|].
  split; [exact (proj1 (proj2 (proj2
    (throws_only_on_missing_option_value Spec.sampleHost "g++"
       ["main.c"; "-o"] (fst (createFile ["main.c"] initialState))))) Hg)|].
  split; [exact Hf|].
  exact (proj1 (proj2
    (throws_only_on_missing_option_value Spec.sampleHost "find"
       ["/home/user"; "-name"] initialState)) Hf).
Defined.

(** ** rm *)

Section Remove.

Variable cwd : string.

Local Abbreviation deleteArg :=
  (fun (m : FsMap) (a : string) => map_delete (resolvePath cwd a) m).

Local Abbreviation missing :=
  (fun (args : list string) (msg : string) =>
     exists a, In a args /\
               msg = "rm: cannot remove '" ++ a ++
                     "': No such file or directory").

Lemma rmStep_store (fs : FsMap) (results : list string) (arg : string) :
  fst (rmStep cwd (fs, results) arg) = map_delete (resolvePath cwd arg) fs.
Proof.
  unfold rmStep, deleteFileSystemItem, fileSystemItemExists.
  destruct (map_has (resolvePath cwd arg) fs) eqn:H; simpl; [reflexivity|].
  symmetry. apply map_delete_absent. now apply map_has_false.
Qed.

Lemma rmStep_messages (fs : FsMap) (results : list string) (arg : string) :
  snd (rmStep cwd (fs, results) arg) = results \/
  snd (rmStep cwd (fs, results) arg)
  = Js.push results ("rm: cannot remove '" ++ arg ++
                     "': No such file or directory").
Proof.
  unfold rmStep, deleteFileSystemItem, fileSystemItemExists.
  destruct (map_has (resolvePath cwd arg) fs); simpl; auto.
Qed.

Lemma rm_fold_store (args : list string) :
  forall acc,
    fst (fold_left (rmStep cwd) args acc) = fold_left deleteArg args (fst acc).
Proof.
  induction args as [|a args IH]; intros [fs results]; [reflexivity|].
  cbn [fold_left]. rewrite IH. rewrite rmStep_store. reflexivity.
Qed.

Lemma rm_fold_messages (all args : list string) :
  (forall a, In a args -> In a all) ->
  forall acc,
    Forall (missing all) (snd acc) ->
    Forall (missing all) (snd (fold_left (rmStep cwd) args acc)).
Proof.
  induction args as [|a args IH]; intros Hin [fs results] H; [exact H|].
  cbn [fold_left]. apply IH; [intros; apply Hin; now right|].
  destruct (rmStep_messages fs results a) as [-> | ->]; [exact H|].
  unfold Js.push. apply Forall_app. split; [exact H|].
  constructor; [|constructor]. exists a. split; [apply Hin; now left|].
  reflexivity.
Qed.

Lemma delete_fold_absent (args : list string) :
  forall m p,
    (exists a, In a args /\ resolvePath cwd a = p) \/ map_get p m = None ->
    map_get p (fold_left deleteArg args m) = None.
Proof.
  induction args as [|a args IH]; intros m p H.
  - destruct H as [(a & [] & _)|H]. exact H.
  - simpl. apply IH.
    destruct (String.eqb_spec (resolvePath cwd a) p) as [E|E].
    + right. rewrite E. apply map_get_delete_same.
    + destruct H as [(b & [<-|Hb] & Hp)|H]; [congruence| |].
      * left. eauto.
      * right. now rewrite map_get_delete_other.
Qed.

Lemma delete_fold_other (args : list string) :
  forall m p,
    (forall a, In a args -> resolvePath cwd a <> p) ->
    map_get p (fold_left deleteArg args m) = map_get p m.
Proof.
  induction args as [|a args IH]; intros m p H; [reflexivity|].
  simpl. rewrite IH by (intros; apply H; now right).
  apply map_get_delete_other. apply H. now left.
Qed.

End Remove.

(** X10. [rm] with at least one argument removes exactly the nodes at
    the resolved paths of its arguments: each of these paths is absent
    afterwards, and every other path, the children of a removed directory
    included, reads as before.  The only message it ever gives is "No
    such file or directory" for an argument (the "Operation failed"
    branch is never taken); the output is the messages joined by line
    breaks, the error the first of them, and the result succeeds exactly
    when there is none. *)
Theorem rm_contract (args : list string) (st : State) :
  args <> [] ->
  exists fs' msgs,
    removeFile args st
    = (withFileSystem st fs',
       Return (mkResult (Js.join Js.nl msgs) (hd_error msgs)
                        (currentDirectory st)
                        (match msgs with [] => true | _ :: _ => false end))) /\
    (forall a, In a args ->
               fileSystemItemExists fs' (resolvePath (currentDirectory st) a)
               = false) /\
    (forall p, (forall a, In a args ->
                          resolvePath (currentDirectory st) a <> p) ->
               getFileSystemItem fs' p = getFileSystemItem (fileSystem st) p) /\
    Forall (fun msg =>
              exists a, In a args /\
                        msg = "rm: cannot remove '" ++ a ++
                              "': No such file or directory") msgs.
Proof.
  intros Hne. unfold removeFile.
  destruct args as [|a0 args0]; [congruence|].
  change (List.length (a0 :: args0) =? 0)%nat with false. cbv iota.
  pose proof (rm_fold_store (currentDirectory st) (a0 :: args0)
                            (fileSystem st, [])) as Hs.
  pose proof (@rm_fold_messages (currentDirectory st) (a0 :: args0)
                (a0 :: args0) (fun a H => H) (fileSystem st, [])
                (Forall_nil _)) as Hm.
  destruct (fold_left _ (a0 :: args0) _) as [fs' msgs].
  simpl fst in Hs. simpl snd in Hm. subst fs'.
  eexists. exists msgs. split; [|split; [|split]].
  - unfold aggregate. simpl currentDirectory. now destruct msgs.
  - intros a Ha. apply map_has_false. apply delete_fold_absent. left. eauto.
  - intros p Hp. now apply delete_fold_other.
  - exact Hm.
Qed.

Lemma rm_contract_witness :
  ["Documents"; "nothing"] <> [] /\
  exists fs' msgs,
    removeFile ["Documents"; "nothing"] initialState
    = (withFileSystem initialState fs',
       Return (mkResult (Js.join Js.nl msgs) (hd_error msgs) "/home/user"
                        (match msgs with [] => true | _ :: _ => false end))).
Proof.
  assert (H : ["Documents"; "nothing"] <> []) by discriminate.
  split; [exact H|].
  destruct (@rm_contract ["Documents"; "nothing"] initialState H)
    as (fs' & msgs & Hr & _).
  exists fs', msgs. exact Hr.
Defined.

(** ** touch *)

Section Touch.

Variable cwd : string.

Lemma touch_fold_keeps (args : list string) :
  forall fs p node,
    map_get p fs = Some node ->
    map_get p (fold_left (touchStep cwd) args fs) = Some node.
Proof.
  induction args as [|a args IH]; intros fs p node H; [exact H|].
  simpl. apply IH. unfold touchStep, fileSystemItemExists, createFileSystemItem.
  destruct (map_has (resolvePath cwd a) fs) eqn:Hex; [exact H|].
  simpl path. rewrite map_get_set_other; [exact H|].
  intros E. subst p. apply map_has_false in Hex. congruence.
Qed.

Lemma touch_fold_other (args : list string) :
  forall fs p,
    (forall a, In a args -> resolvePath cwd a <> p) ->
    map_get p (fold_left (touchStep cwd) args fs) = map_get p fs.
Proof.
  induction args as [|a args IH]; intros fs p H; [reflexivity|].
  simpl. rewrite IH by (intros; apply H; now right).
  unfold touchStep, createFileSystemItem.
  destruct (fileSystemItemExists fs (resolvePath cwd a)); [reflexivity|].
  simpl path. apply map_get_set_other. apply H. now left.
Qed.

Lemma touch_fold_present (args : list string) :
  forall fs a,
    In a args ->
    match map_get (resolvePath cwd a) fs with
    | Some node =>
        map_get (resolvePath cwd a) (fold_left (touchStep cwd) args fs)
        = Some node
    | None =>
        exists node,
          map_get (resolvePath cwd a) (fold_left (touchStep cwd) args fs)
          = Some node /\
          type node = file /\ content node = Some "" /\
          permissions node = "-rw-r--r--" /\ size node = "0"
    end.
Proof.
  induction args as [|b args IH]; intros fs a Hin; [destruct Hin|].
  destruct (map_get (resolvePath cwd a) fs) as [node|] eqn:Hget.
  - now apply touch_fold_keeps.
  - cbn [fold_left]. destruct Hin as [->|Hin].
    + unfold touchStep at 2. unfold fileSystemItemExists, map_has.
      rewrite Hget. eexists. split.
      * apply touch_fold_keeps. unfold createFileSystemItem. simpl path.
        apply map_get_set_same.
      * now repeat split.
    + specialize (IH (touchStep cwd fs b) a Hin).
      destruct (map_get (resolvePath cwd a) (touchStep cwd fs b))
        as [node|] eqn:Hb; [|exact IH].
      exists node. split; [exact IH|].
      revert Hb. unfold touchStep, createFileSystemItem.
      destruct (fileSystemItemExists fs (resolvePath cwd b)); [congruence|].
      simpl path.
      destruct (String.eqb_spec (resolvePath cwd b) (resolvePath cwd a))
        as [E|E].
      * rewrite E, map_get_set_same. intros [= <-]. now repeat split.
      * rewrite map_get_set_other by assumption. congruence.
Qed.

Lemma touch_fold_fixed (args : list string) (fs : FsMap) :
  (forall a, In a args -> fileSystemItemExists fs (resolvePath cwd a) = true) ->
  fold_left (touchStep cwd) args fs = fs.
Proof.
  induction args as [|a args IH]; intros H; [reflexivity|].
  simpl. unfold touchStep at 2. rewrite (H a) by now left.
  apply IH. intros; apply H; now right.
Qed.

End Touch.

(** X11. [touch] with at least one argument always succeeds with empty
    output.  Afterwards a node is stored at the resolved path of every
    argument: the node that was there, untouched (content, size and kind
    kept, whether file or directory), or else a new empty file of size
    ["0"].  No stored node is changed or removed, paths not named are as
    before, and running the same [touch] again changes nothing. *)
Theorem touch_contract (args : list string) (st : State) :
  args <> [] ->
  let st' := fst (createFile args st) in
  snd (createFile args st) = Return (mkResult "" None (currentDirectory st) true) /\
  (forall a,
      In a args ->
      match getFileSystemItem (fileSystem st)
                              (resolvePath (currentDirectory st) a) with
      | Some node =>
          getFileSystemItem (fileSystem st')
                            (resolvePath (currentDirectory st) a) = Some node
      | None =>
          exists node,
            getFileSystemItem (fileSystem st')
                              (resolvePath (currentDirectory st) a)
            = Some node /\
            type node = file /\ content node = Some "" /\
            permissions node = "-rw-r--r--" /\ size node = "0"
      end) /\
  (forall p node,
      getFileSystemItem (fileSystem st) p = Some node ->
      getFileSystemItem (fileSystem st') p = Some node) /\
  (forall p,
      (forall a, In a args -> resolvePath (currentDirectory st) a <> p) ->
      getFileSystemItem (fileSystem st') p = getFileSystemItem (fileSystem st) p)
  /\
  fst (createFile args st') = st'.
Proof.
  intros Hne. cbv zeta. unfold createFile.
  destruct args as [|a0 args0]; [congruence|].
  change (List.length (a0 :: args0) =? 0)%nat with false. cbv iota.
  cbn [fst snd fileSystem currentDirectory withFileSystem].
  unfold getFileSystemItem.
  split; [reflexivity|]. split; [|split; [|split]].
  - intros a Ha. now apply touch_fold_present.
  - intros p node H. now apply touch_fold_keeps.
  - intros p H. now apply touch_fold_other.
  - assert (Hfix : forall a,
               In a (a0 :: args0) ->
               fileSystemItemExists
                 (fold_left (touchStep (currentDirectory st)) (a0 :: args0)
                            (fileSystem st))
                 (resolvePath (currentDirectory st) a) = true).
    { intros a Ha. unfold fileSystemItemExists, map_has.
      pose proof (@touch_fold_present (currentDirectory st) (a0 :: args0)
                    (fileSystem st) a Ha) as Hp.
      destruct (map_get (resolvePath (currentDirectory st) a) (fileSystem st)).
      - now rewrite Hp.
      - destruct Hp as (node & -> & _). reflexivity. }
    rewrite (touch_fold_fixed _ _ _ Hfix). reflexivity.
Qed.

Lemma touch_contract_witness :
  ["a.txt"; ".bashrc"] <> [] /\
  fst (createFile ["a.txt"; ".bashrc"]
                  (fst (createFile ["a.txt"; ".bashrc"] initialState)))
  = fst (createFile ["a.txt"; ".bashrc"] initialState).
Proof.
  assert (H : ["a.txt"; ".bashrc"] <> []) by discriminate.
  split; [exact H|].
  exact (proj2 (proj2 (proj2 (proj2
    (@touch_contract ["a.txt"; ".bashrc"] initialState H))))).
Defined.

(** ** echo, cat, chmod, cp and mv together *)

Lemma echo_redirect (args text : list string) (filename : string)
      (st : State) :
  Spec.redirection args = Some (text, filename) ->
  let content := Js.removeAll Js.dquote (Js.join " " text) in
  let fullPath := resolvePath (currentDirectory st) filename in
  echo args st
  = (withFileSystem st
       (map_set fullPath
          (mkItem fullPath (baseName filename) file (Some content)
                  "-rw-r--r--" (Js.toString (String.length content)))
          (fileSystem st)),
     Return (mkResult "" None (currentDirectory st) true)).
Proof.
  rewrite redirection_indexOf. unfold echo. cbv zeta.
  destruct args as [|a rest]; [discriminate|].
  change (List.length (a :: rest) =? 0)%nat with false. cbv iota.
  destruct (Js.indexOf ">" (a :: rest)) as [i|]; [|discriminate].
  destruct (i <? List.length (a :: rest) - 1)%nat; [|discriminate].
  destruct (nth_error (a :: rest) (i + 1)) as [f|]; [|discriminate].
  intros [= <- <-]. reflexivity.
Qed.

(** X12. What [echo] writes, [cat] reads back: after [echo text > file],
    [cat file] in the same directory succeeds and prints the text that was
    stored (the words before [>] joined by single spaces, double quotes
    removed), whatever node was at that path before. *)
Theorem echo_then_cat (args text : list string) (filename : string)
        (st : State) :
  Spec.redirection args = Some (text, filename) ->
  filename <> "" ->
  readFile (Some filename) (fst (echo args st))
  = mkResult (Js.removeAll Js.dquote (Js.join " " text)) None
             (currentDirectory st) true.
Proof.
  intros Hr Hf. rewrite (@echo_redirect args text filename st Hr).
  unfold readFile.
  destruct (String.eqb_spec filename ""); [congruence|].
  cbn [fst fileSystem currentDirectory withFileSystem].
  unfold getFileSystemItem. rewrite map_get_set_same.
  cbn [type content mkItem ItemType_eqb]. unfold ok, Js.or_else.
  cbn [currentDirectory withFileSystem].
  now destruct (String.eqb_spec (Js.removeAll Js.dquote (Js.join " " text)) "")
    as [->|].
Qed.

Lemma echo_then_cat_witness :
  Spec.redirection ["one"; q ++ "two" ++ q; ">"; "Documents"]
  = Some (["one"; q ++ "two" ++ q], "Documents") /\
  "Documents" <> "" /\
  readFile (Some "Documents")
           (fst (echo ["one"; q ++ "two" ++ q; ">"; "Documents"] initialState))
  = mkResult "one two" None "/home/user" true.
Proof.
  split; [reflexivity|]. split; [discriminate|].
  exact (@echo_then_cat ["one"; q ++ "two" ++ q; ">"; "Documents"]
           ["one"; q ++ "two" ++ q] "Documents" initialState eq_refl
           ltac:(discriminate)).
Defined.

(** X13. [chmod mode file] on a stored node sets its permissions to
    ['-'] followed by [mode] as given, for a directory too, and keeps its
    path, name, kind, content and size; every other path reads as before
    and the result succeeds with empty output.  On a path that is not
    stored it fails with "cannot access" and changes nothing. *)
Theorem chmod_contract (mode filename : string) (rest : list string)
        (st : State) :
  let filepath := resolvePath (currentDirectory st) filename in
  match getFileSystemItem (fileSystem st) filepath with
  | Some item =>
      let st' := fst (changePermissions (mode :: filename :: rest) st) in
      snd (changePermissions (mode :: filename :: rest) st)
      = Return (mkResult "" None (currentDirectory st) true) /\
      getFileSystemItem (fileSystem st') filepath
      = Some (mkItem (path item) (name item) (type item) (content item)
                     ("-" ++ mode) (size item)) /\
      (forall p, p <> filepath ->
                 getFileSystemItem (fileSystem st') p
                 = getFileSystemItem (fileSystem st) p)
  | None =>
      changePermissions (mode :: filename :: rest) st
      = (st, Return (mkResult
                       ("chmod: cannot access '" ++ filename ++
                        "': No such file or directory")
                       (Some "File not found") (currentDirectory st) false))
  end.
Proof.
  cbv zeta. unfold changePermissions. cbv zeta.
  destruct (getFileSystemItem (fileSystem st)
                              (resolvePath (currentDirectory st) filename))
    as [item|] eqn:Hget; [|reflexivity].
  cbn [fst snd fileSystem withFileSystem].
  unfold updatePermissions, getFileSystemItem in *. rewrite Hget.
  split; [reflexivity|]. split; [apply map_get_set_same|].
  intros p Hp. apply map_get_set_other. congruence.
Qed.

(** X14. Moving a node onto itself loses it: when source and
    destination resolve to the same path and a node is stored there,
    [mv] succeeds with empty output and the node is gone, every other
    path reading as before; [cp] in the same situation keeps a node of
    the same kind, content, permissions and size at that path. *)
Theorem mv_onto_itself (src dst : string) (st : State) :
  resolvePath (currentDirectory st) src = resolvePath (currentDirectory st) dst ->
  fileSystemItemExists (fileSystem st) (resolvePath (currentDirectory st) src)
  = true ->
  let source := resolvePath (currentDirectory st) src in
  snd (moveFile [src; dst] st)
  = Return (mkResult "" None (currentDirectory st) true) /\
  getFileSystemItem (fileSystem (fst (moveFile [src; dst] st))) source = None /\
  (forall p, p <> source ->
             getFileSystemItem (fileSystem (fst (moveFile [src; dst] st))) p
             = getFileSystemItem (fileSystem st) p) /\
  exists node kept,
    getFileSystemItem (fileSystem st) source = Some node /\
    getFileSystemItem (fileSystem (fst (copyFile [src; dst] st))) source
    = Some kept /\
    type kept = type node /\ content kept = content node /\
    permissions kept = permissions node /\ size kept = size node.
Proof.
  intros Heq Hex. cbv zeta. unfold fileSystemItemExists in Hex.
  apply map_has_get in Hex. destruct Hex as [node Hnode].
  unfold moveFile, copyFile, getFileSystemItem. rewrite <- Heq, Hnode.
  cbn [fst snd fileSystem withFileSystem deleteFileSystemItem].
  unfold createFileSystemItem. cbn [path mkItem].
  split; [reflexivity|]. split; [apply map_get_delete_same|].
  split.
  - intros p Hp. rewrite map_get_delete_other by congruence.
    apply map_get_set_other. congruence.
  - exists node. eexists. split; [reflexivity|].
    split; [apply map_get_set_same|]. now repeat split.
Qed.

Lemma mv_onto_itself_witness :
  resolvePath "/home/user" ".bashrc" = resolvePath "/home/user" "~/.bashrc" /\
  fileSystemItemExists (fileSystem initialState) "/home/user/.bashrc" = true /\
  getFileSystemItem
    (fileSystem (fst (moveFile [".bashrc"; "~/.bashrc"] initialState)))
    "/home/user/.bashrc" = None.
Proof.
  split; [reflexivity|]. split; [reflexivity|].
  exact (proj1 (proj2 (@mv_onto_itself ".bashrc" "~/.bashrc" initialState
                         eq_refl eq_refl))).
Defined.

(** X15. [mkdir] then [rm] is a round trip: when [mkdir arg] finds the
    path free and its parent stored (or the parent path is ['/']), it
    succeeds and the path exists; [rm arg] then succeeds and gives back
    the very store [mkdir] started from, order of the nodes included. *)
Theorem mkdir_then_rm (arg : string) (st : State) :
  let fullPath := resolvePath (currentDirectory st) arg in
  fileSystemItemExists (fileSystem st) fullPath = false ->
  itemDir fullPath = "/" \/
  fileSystemItemExists (fileSystem st) (itemDir fullPath) = true ->
  let st1 := fst (makeDirectory [arg] st) in
  snd (makeDirectory [arg] st)
  = Return (mkResult "" None (currentDirectory st) true) /\
  fileSystemItemExists (fileSystem st1) fullPath = true /\
  snd (removeFile [arg] st1)
  = Return (mkResult "" None (currentDirectory st) true) /\
  fileSystem (fst (removeFile [arg] st1)) = fileSystem st.
Proof.
  cbv zeta. intros Hfree Hpar.
  unfold makeDirectory.
  change (List.length [arg] =? 0)%nat with false. cbv iota.
  cbn [fold_left]. rewrite (mkdirStep_create _ _ [] _ Hfree Hpar).
  cbn [fst snd fileSystem currentDirectory withFileSystem].
  assert (Hnow : fileSystemItemExists
                   (map_set (resolvePath (currentDirectory st) arg)
                      (mkItem (resolvePath (currentDirectory st) arg)
                              (baseName arg) directory None
                              "drwxr-xr-x" "4096") (fileSystem st))
                   (resolvePath (currentDirectory st) arg) = true)
    by (unfold fileSystemItemExists, map_has; now rewrite map_get_set_same).
  split; [reflexivity|]. split; [exact Hnow|].
  unfold removeFile.
  change (List.length [arg] =? 0)%nat with false. cbv iota.
  cbn [fold_left fileSystem currentDirectory withFileSystem].
  unfold rmStep. rewrite Hnow. cbn [negb].
  unfold deleteFileSystemItem. fold (fileSystemItemExists
    (map_set (resolvePath (currentDirectory st) arg)
       (mkItem (resolvePath (currentDirectory st) arg) (baseName arg)
               directory None "drwxr-xr-x" "4096") (fileSystem st))
    (resolvePath (currentDirectory st) arg)).
  rewrite Hnow. cbn [negb fst snd fileSystem withFileSystem].
  split; [reflexivity|].
  apply map_delete_set_absent. now apply map_has_false.
Qed.

Lemma mkdir_then_rm_witness :
  fileSystemItemExists (fileSystem initialState) "/home/user/t" = false /\
  fileSystemItemExists (fileSystem initialState) (itemDir "/home/user/t")
  = true /\
  fileSystem (fst (removeFile ["t"] (fst (makeDirectory ["t"] initialState))))
  = fileSystem initialState.
Proof.
  split; [reflexivity|]. split; [reflexivity|].
  exact (proj2 (proj2 (proj2
    (@mkdir_then_rm "t" initialState eq_refl (or_intror eq_refl))))).
Defined.

(** ** Reading a command line *)

Definition headNonSpace (s : string) : Prop :=
  match s with
  | EmptyString => False
  | String a _ => Js.isSpace a = false
  end.

Fixpoint lastNonSpace (s : string) : Prop :=
  match s with
  | EmptyString => True
  | String a s' =>
      match s' with
      | EmptyString => Js.isSpace a = false
      | String _ _ => lastNonSpace s'
      end
  end.

Lemma trimStart_head (s : string) :
  Js.trimStart s = "" \/ headNonSpace (Js.trimStart s).
Proof.
  induction s as [|a s IH]; simpl; [now left|].
  destruct (Js.isSpace a) eqn:E; [exact IH | now right].
Qed.

Lemma trimStart_fixed (s : string) : headNonSpace s -> Js.trimStart s = s.
Proof. destruct s as [|a s]; simpl; [tauto | now intros ->]. Qed.

Lemma trimEnd_last (s : string) : lastNonSpace (Js.trimEnd s).
Proof.
  induction s as [|a s IH]; simpl; [exact I|].
  destruct (Js.isSpace a) eqn:Ea; simpl.
  - destruct (String.eqb_spec (Js.trimEnd s) "") as [E|E]; simpl; [exact I|].
    destruct (Js.trimEnd s); [congruence | exact IH].
  - destruct (Js.trimEnd s); [exact Ea | exact IH].
Qed.

Lemma trimEnd_head (s : string) :
  headNonSpace s -> headNonSpace (Js.trimEnd s).
Proof.
  destruct s as [|a s]; simpl; [tauto|]. intros H. rewrite H. exact H.
Qed.

Lemma trimEnd_fixed (s : string) : lastNonSpace s -> Js.trimEnd s = s.
Proof.
  induction s as [|a s IH]; [reflexivity|].
  intros H. cbn [Js.trimEnd]. destruct s as [|b s].
  - simpl in *. now rewrite H.
  - rewrite IH by exact H. simpl. now rewrite andb_false_r.
Qed.

Lemma trim_shape (s : string) :
  Js.trim s = "" \/ (headNonSpace (Js.trim s) /\ lastNonSpace (Js.trim s)).
Proof.
  unfold Js.trim. destruct (trimStart_head s) as [->|H]; [now left|].
  right. split; [now apply trimEnd_head | apply trimEnd_last].
Qed.

Lemma trim_trim (s : string) : Js.trim (Js.trim s) = Js.trim s.
Proof.
  destruct (trim_shape s) as [->|[Hh Hl]]; [reflexivity|].
  unfold Js.trim at 1. rewrite trimStart_fixed by assumption.
  now apply trimEnd_fixed.
Qed.

Lemma hasSpace_snoc (s : string) (a : ascii) :
  Inv.hasSpace s = false -> Js.isSpace a = false ->
  Inv.hasSpace (s ++ String a "") = false.
Proof.
  induction s as [|b s IH]; simpl; intros Hs Ha.
  - now rewrite Ha.
  - apply orb_false_iff in Hs. destruct Hs as [-> Hs]. simpl. now apply IH.
Qed.

Lemma snoc_not_empty (s : string) (a : ascii) : s ++ String a "" <> "".
Proof. destruct s; discriminate. Qed.

Lemma splitSpaces'_tokens (s : string) :
  forall inGap cur,
    Inv.hasSpace cur = false ->
    (inGap = true -> cur = "" /\ s <> "") ->
    (inGap = false -> cur = "" -> headNonSpace s) ->
    lastNonSpace s ->
    Forall Inv.token (Js.splitSpaces' inGap cur s).
Proof.
  induction s as [|a s IH]; intros inGap cur Hcur Hgap Hhead Hlast.
  - simpl. constructor; [|constructor]. split; [|exact Hcur].
    intros ->. destruct inGap.
    + now destruct (Hgap eq_refl).
    + exact (Hhead eq_refl eq_refl).
  - assert (Hrest : Js.isSpace a = true -> s <> "" /\ lastNonSpace s).
    { intros Ha. destruct s as [|b s]; [simpl in Hlast; congruence|].
      split; [discriminate | exact Hlast]. }
    assert (Hrest' : lastNonSpace s) by (destruct s; [exact I | exact Hlast]).
    cbn [Js.splitSpaces']. destruct (Js.isSpace a) eqn:Ha.
    + destruct (Hrest eq_refl) as [Hs Hl]. destruct inGap.
      * destruct (Hgap eq_refl) as [-> _].
        apply IH; auto; discriminate.
      * constructor.
        -- split; [|exact Hcur]. intros ->.
           specialize (Hhead eq_refl eq_refl). simpl in Hhead. congruence.
        -- apply IH; auto; discriminate.
    + apply IH; auto.
      * now apply hasSpace_snoc.
      * discriminate.
      * intros _ E. now apply snoc_not_empty in E.
Qed.

Lemma splitSpaces'_not_nil (s : string) :
  forall inGap cur, Js.splitSpaces' inGap cur s <> [].
Proof.
  induction s as [|a s IH]; intros inGap cur; simpl; [discriminate|].
  destruct (Js.isSpace a); [destruct inGap|];
    [apply IH | discriminate | apply IH].
Qed.

(** X16. The dispatcher never hands a handler an empty argument or one
    that holds white space: for a command line that is not blank, the
    command name and every argument are non-empty and free of white
    space, however many white-space characters separate or surround
    them. *)
Theorem command_line_tokens (command : string) :
  Js.trim command <> "" ->
  Inv.token (Inv.commandName command) /\
  Forall Inv.token (Inv.commandArgs command).
Proof.
  intros Hne. unfold Inv.commandName, Inv.commandArgs, Js.splitSpaces.
  destruct (trim_shape command) as [E|[Hh Hl]]; [congruence|].
  pose proof (@splitSpaces'_tokens (Js.trim command) false "" eq_refl
                ltac:(discriminate) (fun _ _ => Hh) Hl) as H.
  destruct (Js.splitSpaces' false "" (Js.trim command)) as [|t ts] eqn:E.
  - exfalso. exact (splitSpaces'_not_nil _ _ _ E).
  - inversion H; subst. now split.
Qed.

Lemma command_line_tokens_witness :
  Js.trim "  echo   a  b " <> "" /\
  Inv.token (Inv.commandName "  echo   a  b ") /\
  Inv.commandArgs "  echo   a  b " = ["a"; "b"].
Proof.
  assert (H : Js.trim "  echo   a  b " <> "") by (vm_compute; discriminate).
  split; [exact H|].
  split; [exact (proj1 (@command_line_tokens "  echo   a  b " H))|].
  reflexivity.
Defined.

(** X17. White space around a command line is immaterial: trimming is
    idempotent, so a line and its trimmed form give the same result and
    the same state, history included. *)
Theorem surrounding_space_is_ignored (host : Host) (command : string)
        (st : State) :
  Js.trim (Js.trim command) = Js.trim command /\
  executeCommand host (Js.trim command) st = executeCommand host command st.
Proof.
  split; [apply trim_trim|].
  unfold executeCommand. now rewrite trim_trim.
Qed.

(** ** Listing with a trailing slash *)

Lemma substring_prefix_app (p s : string) :
  substring 0 (String.length p) (p ++ s) = p.
Proof.
  induction p as [|a p IH]; simpl; [now destruct s | now rewrite IH].
Qed.

Lemma substring_suffix_app (p s : string) :
  substring (String.length p) (String.length s) (p ++ s) = s.
Proof.
  induction p as [|a p IH]; simpl; [apply substring_all | exact IH].
Qed.

Lemma length_snoc (p : string) (a : ascii) :
  String.length (p ++ String a "") = S (String.length p).
Proof. induction p as [|b p IH]; simpl; [reflexivity | now rewrite IH]. Qed.

Lemma normalizedPath_slash (p : string) :
  p <> "" -> normalizedPath (p ++ "/") = p.
Proof.
  intros Hp. unfold normalizedPath, Js.endsWith.
  rewrite length_snoc. cbn [String.length Nat.sub Nat.leb].
  rewrite Nat.sub_0_r.
  change 1 with (String.length "/").
  rewrite (substring_suffix_app p "/"), String.eqb_refl.
  assert (E : (p ++ "/" =? "/") = false).
  { apply String.eqb_neq. destruct p as [|a [|b p]]; [congruence| |];
      discriminate. }
  rewrite E. cbn [andb negb]. apply substring_prefix_app.
Qed.

(** X18. One trailing slash does not matter to a listing: for a path
    that is not empty and does not itself end with a slash,
    [getDirectoryContents] gives the same nodes for the path and for the
    path followed by ['/'] (this is what [find dir/] relies on, since it
    passes its argument on as typed).  The root is listed as it is, and
    never lists itself. *)
Theorem listing_ignores_trailing_slash (m : FsMap) (p : string) :
  p <> "" ->
  Js.endsWith p "/" = false ->
  getDirectoryContents m (p ++ "/") = getDirectoryContents m p /\
  Forall (fun item => path item <> p /\ itemDir (path item) = p)
         (getDirectoryContents m p) /\
  Forall (fun item => path item <> "/") (getDirectoryContents m "/").
Proof.
  intros Hp He. unfold getDirectoryContents.
  rewrite (normalizedPath_slash Hp).
  rewrite (@normalizedPath_plain p (or_introl He)).
  change (normalizedPath "/") with "/".
  split; [reflexivity|]. split.
  - apply Forall_forall. intros item Hin. apply filter_In in Hin.
    destruct Hin as [_ Hin]. apply andb_true_iff in Hin.
    destruct Hin as [H1 H2]. apply String.eqb_eq in H1.
    apply negb_true_iff, String.eqb_neq in H2. now split.
  - apply Forall_forall. intros item Hin. apply filter_In in Hin.
    destruct Hin as [_ Hin]. apply andb_true_iff in Hin.
    destruct Hin as [_ H2]. now apply negb_true_iff, String.eqb_neq in H2.
Qed.

Lemma listing_ignores_trailing_slash_witness :
  "/home/user" <> "" /\
  Js.endsWith "/home/user" "/" = false /\
  getDirectoryContents initializeFileSystem "/home/user/"
  = getDirectoryContents initializeFileSystem "/home/user".
Proof.
  split; [discriminate|]. split; [reflexivity|].
  exact (proj1 (@listing_ignores_trailing_slash initializeFileSystem
                  "/home/user" ltac:(discriminate) eq_refl)).
Defined.

(** ** mkdir and the parents of nodes *)

Lemma map_has_set_mono (k k' : string) (v : FileSystemItem) (m : FsMap) :
  map_has k' m = true -> map_has k' (map_set k v m) = true.
Proof.
  unfold map_has. destruct (String.eqb_spec k k') as [->|Hne].
  - now rewrite map_get_set_same.
  - now rewrite map_get_set_other.
Qed.

Lemma parentsPresent_create (m : FsMap) (item : FileSystemItem) :
  Inv.parentsPresent m ->
  itemDir (path item) = "/" \/
  fileSystemItemExists m (itemDir (path item)) = true ->
  Inv.parentsPresent (createFileSystemItem m item).
Proof.
  unfold Inv.parentsPresent, createFileSystemItem, fileSystemItemExists.
  intros Hm Hitem. apply map_set_Forall.
  - eapply Forall_impl; [|exact Hm]. intros kv [H|H]; [now left|].
    right. now apply map_has_set_mono.
  - simpl. destruct Hitem as [H|H]; [now left|].
    right. now apply map_has_set_mono.
Qed.

Lemma mkdir_fold_parents (cwd : string) (args : list string) :
  forall acc,
    Inv.parentsPresent (fst acc) ->
    Inv.parentsPresent (fst (fold_left (mkdirStep cwd) args acc)).
Proof.
  induction args as [|arg args IH]; intros [fs results] H; [exact H|].
  cbn [fold_left]. apply IH. unfold mkdirStep.
  destruct (fileSystemItemExists fs (resolvePath cwd arg)); [exact H|].
  cbv zeta.
  change (Js.or_else (Some (Js.beforeLast "/" (resolvePath cwd arg))) "/")
    with (itemDir (resolvePath cwd arg)).
  destruct (fileSystemItemExists fs (itemDir (resolvePath cwd arg))) eqn:Hp;
    cbn [negb andb fst].
  - apply parentsPresent_create; [exact H | now right].
  - destruct (String.eqb_spec (itemDir (resolvePath cwd arg)) "/") as [E|E];
      cbn [negb fst]; [|exact H].
    apply parentsPresent_create; [exact H | now left].
Qed.

(** X19. [mkdir] never stores a node under a missing parent: if every
    stored path has its derived parent stored (or the parent path is
    ['/']), the same holds after [mkdir], whatever its arguments and
    whether it succeeds or not. *)
Theorem mkdir_keeps_parents (args : list string) (st : State) :
  Inv.parentsPresent (fileSystem st) ->
  Inv.parentsPresent (fileSystem (fst (makeDirectory args st))).
Proof.
  intros H. unfold makeDirectory.
  destruct (List.length args =? 0)%nat; [exact H|].
  pose proof (@mkdir_fold_parents (currentDirectory st) args
                (fileSystem st, []) H) as Hf.
  destruct (fold_left _ args _) as [fs results]. exact Hf.
Qed.

Lemma mkdir_keeps_parents_witness :
  Inv.parentsPresent (fileSystem initialState) /\
  Inv.parentsPresent
    (fileSystem (fst (makeDirectory ["a"; "a/b"; "x/y"; "/z"] initialState))).
Proof.
  assert (H : Inv.parentsPresent (fileSystem initialState))
    by (unfold Inv.parentsPresent; simpl; repeat constructor;
        solve [now left | now right]).
  split; [exact H|].
  exact (@mkdir_keeps_parents ["a"; "a/b"; "x/y"; "/z"] initialState H).
Defined.

(** ** Readers and the kind of a node *)

(** X20. Which readers check the kind of a node.  On a path where a
    directory is stored, [cat] and [grep] fail with "Is a directory" and
    [python] fails with "Invalid file"; [node] does not look at the kind
    and reports a successful run.  None of them changes the state. *)
Theorem readers_on_a_directory (f pattern : string) (rest : list string)
        (st : State) (item : FileSystemItem) :
  f <> "" ->
  getFileSystemItem (fileSystem st) (resolvePath (currentDirectory st) f)
  = Some item ->
  type item = directory ->
  readFile (Some f) st
  = mkResult ("cat: " ++ f ++ ": Is a directory") (Some "Is a directory")
             (currentDirectory st) false /\
  grepCommand (pattern :: f :: rest) st
  = mkResult ("grep: " ++ f ++ ": Is a directory") (Some "Is a directory")
             (currentDirectory st) false /\
  executePython (f :: rest) st
  = mkResult ("python: can't open file '" ++ f ++
              "': [Errno 21] Is a directory")
             (Some "Invalid file") (currentDirectory st) false /\
  success (executeNode (f :: rest) st) = true.
Proof.
  intros Hf Hget Hdir.
  unfold readFile, grepCommand, executePython, executeNode.
  rewrite Hget, Hdir.
  destruct (String.eqb_spec f ""); [congruence|].
  repeat split.
Qed.

Lemma readers_on_a_directory_witness :
  "Documents" <> "" /\
  readFile (Some "Documents") initialState
  = mkResult "cat: Documents: Is a directory" (Some "Is a directory")
             "/home/user" false.
Proof.
  split; [discriminate|].
  exact (proj1 (@readers_on_a_directory "Documents" "x" [] initialState
                  (mkItem "/home/user/Documents" "Documents" directory None
                          "drwxr-xr-x" "4096")
                  ltac:(discriminate) eq_refl eq_refl)).
Defined.

(** X21. A path that is not stored is an error for every command that
    reads its first file argument, and none of them creates it: [cat],
    [grep], [python], [node], [javac], [gcc], [chmod], [cp] and [mv] on
    such a path fail and leave the state as it was. *)
Theorem missing_file_is_an_error (f other : string) (rest : list string)
        (st : State) :
  f <> "" ->
  getFileSystemItem (fileSystem st) (resolvePath (currentDirectory st) f)
  = None ->
  Forall (fun p : State * Outcome =>
            fst p = st /\
            exists out err,
              snd p = Return (mkResult out (Some err)
                                       (currentDirectory st) false))
         [ stay st (readFile (Some f) st);
           stay st (grepCommand (other :: f :: rest) st);
           stay st (executePython (f :: rest) st);
           stay st (executeNode (f :: rest) st);
           executeJavac (f :: rest) st;
           executeGcc "gcc" (f :: rest) st;
           changePermissions (other :: f :: rest) st;
           copyFile (f :: other :: rest) st;
           moveFile (f :: other :: rest) st ].
Proof.
  intros Hf Hget.
  unfold readFile, grepCommand, executePython, executeNode, executeJavac,
    executeGcc, changePermissions, copyFile, moveFile, stay.
  cbv zeta. rewrite Hget.
  destruct (String.eqb_spec f ""); [congruence|].
  cbn [orb].
  repeat constructor; do 2 eexists; reflexivity.
Qed.

Lemma missing_file_is_an_error_witness :
  "nope.c" <> "" /\
  fst (executeGcc "gcc" ["nope.c"; "-o"] initialState) = initialState.
Proof.
  split; [discriminate|].
  pose proof (@missing_file_is_an_error "nope.c" "x" ["-o"] initialState
                ltac:(discriminate) eq_refl) as H.
  rewrite Forall_forall in H.
  exact (proj1 (H (executeGcc "gcc" ["nope.c"; "-o"] initialState)
                  ltac:(simpl; tauto))).
Defined.

(** ** git clone and cp *)




(** X23. [cp] writes one path only: whatever the arguments, every path
    other than the resolved destination reads after [cp] as it did
    before, so no node is removed and the children of a copied directory
    are not copied with it. *)
Theorem cp_writes_destination_only (args : list string) (st : State)
        (dst : string) :
  nth_error args 1 = Some dst ->
  forall p,
    p <> resolvePath (currentDirectory st) dst ->
    getFileSystemItem (fileSystem (fst (copyFile args st))) p
    = getFileSystemItem (fileSystem st) p.
Proof.
  intros Hdst p Hp. unfold copyFile.
  destruct args as [|arg0 [|arg1 args]]; try reflexivity.
  simpl in Hdst. injection Hdst as ->. cbv zeta.
  destruct (getFileSystemItem (fileSystem st) _); [|reflexivity].
  cbn [fst fileSystem withFileSystem].
  unfold getFileSystemItem, createFileSystemItem. cbn [path mkItem].
  apply map_get_set_other. congruence.
Qed.

Lemma cp_writes_destination_only_witness :
  nth_error ["Documents"; "Copy"] 1 = Some "Copy" /\
  getFileSystemItem
    (fileSystem (fst (copyFile ["Documents"; "Copy"] initialState)))
    "/home/user/Documents"
  = getFileSystemItem (fileSystem initialState) "/home/user/Documents".
Proof.
  split; [reflexivity|].
  exact (@cp_writes_destination_only ["Documents"; "Copy"] initialState
           "Copy" eq_refl "/home/user/Documents" ltac:(discriminate)).
Defined.

(** ** ls *)

Lemma cutLastSlash_lastIndexOf (p : string) :
  Spec.cutLastSlash p
  = option_map (fun i => substring 0 i p) (Js.lastIndexOf "/" p).
Proof.
  induction p as [|a p IH]; [reflexivity|].
  cbn [Spec.cutLastSlash Js.lastIndexOf]. rewrite IH.
  destruct (Js.lastIndexOf "/" p) as [i|]; [reflexivity|].
  cbn [option_map]. now destruct (Ascii.eqb a "/").
Qed.

Lemma itemDir_derivedParent (p : string) : itemDir p = Spec.derivedParent p.
Proof.
  unfold itemDir, Spec.derivedParent, Js.beforeLast, Js.or_else.
  rewrite cutLastSlash_lastIndexOf.
  destruct (Js.lastIndexOf "/" p) as [i|]; [|reflexivity].
  cbn [option_map]. now destruct (substring 0 i p).
Qed.

Lemma snoc_cases (p : string) :
  p = "" \/ exists q c, p = q ++ String c "".
Proof.
  induction p as [|a p IH]; [now left|]. right.
  destruct IH as [->|(q & c & ->)].
  - now exists "", a.
  - now exists (String a q), c.
Qed.

Lemma endsWith_snoc (q : string) (c : ascii) :
  Js.endsWith (q ++ String c "") "/" = Ascii.eqb c "/".
Proof.
  unfold Js.endsWith. rewrite length_snoc.
  cbn [String.length Nat.sub Nat.leb]. rewrite Nat.sub_0_r.
  change 1 with (String.length (String c "")).
  rewrite (substring_suffix_app q (String c "")).
  cbn [String.eqb andb]. now destruct (Ascii.eqb c "/").
Qed.

Lemma dropTrailingSlash_snoc (q : string) (c : ascii) :
  Spec.dropTrailingSlash (q ++ String c "")
  = if Ascii.eqb c "/" then q else q ++ String c "".
Proof.
  induction q as [|a q IH]; [reflexivity|].
  change (String a q ++ String c "") with (String a (q ++ String c "")).
  cbn [Spec.dropTrailingSlash].
  destruct (q ++ String c "") as [|b r] eqn:E;
    [now apply snoc_not_empty in E|].
  rewrite IH. now destruct (Ascii.eqb c "/").
Qed.

Lemma normalizedPath_normalized (p : string) :
  normalizedPath p = Spec.normalized p.
Proof.
  destruct (snoc_cases p) as [->|(q & c & ->)]; [reflexivity|].
  unfold Spec.normalized. rewrite dropTrailingSlash_snoc.
  destruct (Ascii.eqb_spec c "/") as [->|Hc].
  - destruct q as [|a q]; [reflexivity|].
    rewrite normalizedPath_slash by discriminate.
    destruct (String.eqb_spec (String a q ++ "/") "/") as [E|_];
      [|reflexivity].
    destruct q; discriminate.
  - rewrite normalizedPath_plain.
    + destruct (String.eqb_spec (q ++ String c "") "/") as [E|_];
        [|reflexivity].
      destruct q as [|a [|b q]]; simpl in E; congruence.
    + left. rewrite endsWith_snoc. now apply Ascii.eqb_neq.
Qed.

Lemma getDirectoryContents_listChildren (m : FsMap) (dir : string) :
  getDirectoryContents m dir = Spec.listChildren m dir.
Proof.
  unfold getDirectoryContents, Spec.listChildren.
  rewrite normalizedPath_normalized. apply filter_ext.
  intros item. now rewrite itemDir_derivedParent.
Qed.

(** C10. [ls] checks only that a node is stored at the resolved target,
    whatever its kind: it then succeeds and lists the children of the
    target as [listChildren] defines them, the nodes whose derived parent
    is the target path normalized for a trailing slash, the node at that
    normalized path left out.  It fails
    only when no node is stored at the resolved target, with the message
    "cannot access '<target>': No such file or directory".  The instances
    go through [executeCommand]: the bootstrap directory in the three
    formats, the root, a relative directory, a file target (an empty
    listing), a file target that has children, the order of names, a
    target written with a trailing slash, and a missing target. *)
Theorem ls_no_type_check (host : Host) (args : list string) (st : State) :
  let showAll :=
    Js.member "-a" args || Js.member "-la" args || Js.member "-al" args in
  let longFormat :=
    Js.member "-l" args || Js.member "-la" args || Js.member "-al" args in
  let targetPath :=
    Js.or_else (find (fun arg => negb (Js.startsWith arg "-")) args)
               (currentDirectory st) in
  let fullPath := Spec.resolve (currentDirectory st) targetPath in
  match getFileSystemItem (fileSystem st) fullPath with
  | Some _ =>
      listDirectory args st
      = mkResult
          (formatListing showAll longFormat fullPath
                         (Spec.listChildren (fileSystem st) fullPath))
          None (currentDirectory st) true
  | None =>
      listDirectory args st
      = mkResult ("ls: cannot access '" ++ targetPath ++
                  "': No such file or directory")
                 (Some "No such file or directory")
                 (currentDirectory st) false
  end /\
  (success (listDirectory args st) = false <->
   getFileSystemItem (fileSystem st) fullPath = None) /\
  snd (executeCommand host "ls" initialState)
  = mkResult "Documents  Projects" None "/home/user" true /\
  snd (executeCommand host "ls -a" initialState)
  = mkResult ".bash_logout  .bashrc  .profile  Documents  Projects" None
             "/home/user" true /\
  snd (executeCommand host "ls -l" initialState)
  = mkResult
      (Js.join Js.nl
         [ "total 20";
           "drwxr-xr-x 1 user user     4096 Jan 15 14:30 Documents";
           "drwxr-xr-x 1 user user     4096 Jan 15 14:30 Projects" ])
      None "/home/user" true /\
  snd (executeCommand host "ls -la /home" initialState)
  = mkResult
      (Js.join Js.nl
         [ "total 12";
           "drwxr-xr-x 3 user user 4096 Jan 15 14:30 .";
           "drwxr-xr-x 3 root root 4096 Jan 15 14:20 ..";
           "drwxr-xr-x 1 user user     4096 Jan 15 14:30 user" ])
      None "/home/user" true /\
  snd (executeCommand host "ls /" initialState)
  = mkResult "home" None "/home/user" true /\
  snd (executeCommand host "ls user"
                      (runAll host ["cd /home"] initialState))
  = mkResult "Documents  Projects" None "/home" true /\
  (getFileSystemItem (fileSystem initialState) "/home/user/.bashrc"
   = Some (mkItem "/home/user/.bashrc" ".bashrc" file (Some "# .bashrc")
                  "-rw-r--r--" "3526") /\
   snd (executeCommand host "ls .bashrc" initialState)
   = mkResult "" None "/home/user" true) /\
  snd (executeCommand host "ls f"
                      (runAll host ["touch f"; "touch f/g"] initialState))
  = mkResult "g" None "/home/user" true /\
  snd (executeCommand host "ls Documents"
                      (runAll host ["touch Documents/b.txt Documents/a.txt"]
                              initialState))
  = mkResult "a.txt  b.txt" None "/home/user" true /\
  snd (executeCommand host "ls x/"
                      (runAll host ["mkdir x"; "mkdir x/"; "touch x/y"]
                              initialState))
  = mkResult "x/  y" None "/home/user" true /\
  snd (executeCommand host "ls -l nowhere" initialState)
  = mkResult "ls: cannot access 'nowhere': No such file or directory"
             (Some "No such file or directory") "/home/user" false.
Proof.
  cbv zeta. rewrite <- resolvePath_resolve.
  rewrite <- getDirectoryContents_listChildren.
  unfold listDirectory. cbv zeta.
  unfold fileSystemItemExists, getFileSystemItem, map_has.
  destruct (map_get _ (fileSystem st)) as [node|]; simpl negb; cbv iota.
  - split; [reflexivity|]. split; [split; discriminate|].
    repeat split; vm_compute; reflexivity.
  - split; [reflexivity|]. split; [split; reflexivity|].
    repeat split; vm_compute; reflexivity.
Qed.
